(** * Three components of the editor

    - The Guide component (packages/components/src/guide/index.js): a
      shallow embedding of the paged guide modal: its single piece of hook
      state ([currentPage]), the values derived from it on every render
      ([numberOfPages], [canGoBack], [canGoForward]), the closures the render
      creates ([goBack], [goForward]) and the element tree it returns.
    - The image block editor: the link popover of its toolbar, with its
      three hooks, and the methods of the editor that write block
      attributes.
    - The colour hook: the setter it builds for a colour, the colour it
      resolves for a configuration, and its colour detector.

    Numbers are JavaScript numbers that only ever hold integers here (the
    page of a guide starts at 0 and is changed by [+ 1], [- 1] or by an
    index handed to the setter), so they are modelled as [Z]. *)

From Stdlib Require Import ZArith List String Bool Lia.
Import ListNotations.
Open Scope string_scope.
Open Scope list_scope.
Open Scope Z_scope.

(** ** JavaScript values that can reach [finishButtonText] *)

Inductive JSValue : Type :=
| JSUndefined
| JSNull
| JSBool (b : bool)
| JSNumber (n : Z)
| JSString (s : string)
| JSObject (ref : nat).

(** ToBoolean on the values above: [undefined], [null], [false], [0] and the
    empty string are falsy, everything else (objects such as a React element
    included) is truthy. *)
Definition truthy (v : JSValue) : bool :=
  match v with
  | JSUndefined => false
  | JSNull => false
  | JSBool b => b
  | JSNumber n => negb (n =? 0)
  | JSString s => negb (String.eqb s "")
  | JSObject _ => true
  end.

(** [a || b] of JavaScript: the left operand when it is truthy, the right one
    otherwise. *)
Definition js_or (a b : JSValue) : JSValue :=
  if truthy a then a else b.

(** [classnames( ...args )] on optional strings: falsy arguments are dropped,
    the others are joined with one space. *)
Fixpoint classnames (args : list (option string)) : string :=
  match args with
  | [] => ""
  | None :: rest => classnames rest
  | Some c :: rest =>
      if String.eqb c "" then classnames rest
      else match classnames rest with
           | "" => c
           | r => String.append c (String.append " " r)
           end
  end.

(** ** Effects of event handlers

    A handler of the component is a closure built during one render.  Its
    body reads only values captured at that render, so what it does when it
    is called is a fixed, finite sequence of the two effects available to the
    component: writing the hook state and calling the [onFinish] prop. *)

Inductive Cmd : Type :=
| SetCurrentPage (page : Z)
| CallOnFinish.

Definition Handler : Type := list Cmd.

Definition is_CallOnFinish (c : Cmd) : bool :=
  match c with
  | CallOnFinish => true
  | SetCurrentPage _ => false
  end.

(** How many times a handler calls [onFinish] when it runs. *)
Definition onFinish_calls (h : Handler) : nat :=
  List.length (filter is_CallOnFinish h).

(** The setter returned by [useState]: it stores its argument as it is. *)
Definition setCurrentPage (page : Z) : Handler := [SetCurrentPage page].

(** The [onFinish] prop, used as a handler as it is. *)
Definition onFinish : Handler := [CallOnFinish].

(** ** Values recomputed on every render *)

(** [Children.count( children )] for an array of pages. *)
Definition Children_count {Page : Type} (children : list Page) : Z :=
  Z.of_nat (List.length children).

(** [const canGoBack = currentPage > 0;] *)
Definition canGoBack (currentPage : Z) : bool := 0 <? currentPage.

(** [const canGoForward = currentPage < numberOfPages - 1;] *)
Definition canGoForward (currentPage numberOfPages : Z) : bool :=
  currentPage <? numberOfPages - 1.

(** [const goBack = () => { if ( canGoBack ) setCurrentPage( currentPage - 1 ) }] *)
Definition goBack (currentPage : Z) : Handler :=
  if canGoBack currentPage then setCurrentPage (currentPage - 1) else [].

(** [const goForward = () => { if ( canGoForward ) setCurrentPage( currentPage + 1 ) }] *)
Definition goForward (currentPage numberOfPages : Z) : Handler :=
  if canGoForward currentPage numberOfPages
  then setCurrentPage (currentPage + 1) else [].

(** [children[ currentPage ]]: [undefined] outside the array. *)
Definition page_at {Page : Type} (children : list Page) (currentPage : Z)
  : option Page :=
  if currentPage <? 0 then None else nth_error children (Z.to_nat currentPage).

(** ** The element tree *)

Inductive Icon : Type := BackButtonIcon | ForwardButtonIcon.

#[warnings="-register-all"]
Inductive Element (Page : Type) : Type :=
| Modal (className : string) (onRequestClose : Handler)
        (children : list (Element Page))
| KeyboardShortcuts (key : Z) (left right : Handler)
| Div (className : string) (children : list (Element Page))
| PageContent (content : option Page)
| FinishButton (className : string) (onClick : Handler) (label : JSValue)
| IconButton (className : string) (icon : Icon) (onClick : Handler)
             (label : string)
| PageControl (currentPage numberOfPages : Z) (setCurrentPage : Z -> Handler).

Arguments Modal {Page} className onRequestClose children.
Arguments KeyboardShortcuts {Page} key left right.
Arguments Div {Page} className children.
Arguments PageContent {Page} content.
Arguments FinishButton {Page} className onClick label.
Arguments IconButton {Page} className icon onClick label.
Arguments PageControl {Page} currentPage numberOfPages setCurrentPage.

(** [{ cond && <X /> }]: the element when [cond] holds; otherwise the
    expression is [false], which React does not render. *)
Definition when {Page : Type} (cond : bool) (e : Element Page)
  : list (Element Page) :=
  if cond then [e] else [].

(** The props of [Guide]. [onFinish] is the handler of that name above. *)
Record Props (Page : Type) : Type := mkProps {
  children : list Page;
  className : option string;
  finishButtonText : JSValue
}.

Arguments mkProps {Page} children className finishButtonText.
Arguments children {Page} p.
Arguments className {Page} p.
Arguments finishButtonText {Page} p.

Section Guide.

Variable Page : Type.

(** The localisation function [__] of [@wordpress/i18n]. *)
Variable translate : string -> string.

(** The function body of [Guide] for the hook state [currentPage]:
    [None] is the [return null] of an empty guide. *)
Definition Guide (props : Props Page) (currentPage : Z)
  : option (Element Page) :=
  let numberOfPages := Children_count (children props) in
  let canGoBack := canGoBack currentPage in
  let canGoForward := canGoForward currentPage numberOfPages in
  let goBack := goBack currentPage in
  let goForward := goForward currentPage numberOfPages in
  if numberOfPages =? 0 then None
  else Some
    (Modal (classnames [Some "components-guide"; className props]) onFinish
       [ KeyboardShortcuts currentPage goBack goForward;
         Div "components-guide__container"
           ([ PageContent (page_at (children props) currentPage) ]
            ++ when (negb canGoForward)
                 (FinishButton "components-guide__inline-finish-button"
                    onFinish
                    (js_or (finishButtonText props)
                           (JSString (translate "Finish"))))
            ++ [ Div "components-guide__footer"
                   (when canGoBack
                      (IconButton "components-guide__back-button"
                         BackButtonIcon goBack (translate "Previous"))
                    ++ [ PageControl currentPage numberOfPages
                           setCurrentPage ]
                    ++ when canGoForward
                         (IconButton "components-guide__forward-button"
                            ForwardButtonIcon goForward (translate "Next"))
                    ++ when (negb canGoForward)
                         (FinishButton "components-guide__finish-button"
                            onFinish
                            (js_or (finishButtonText props)
                                   (JSString (translate "Finish"))))) ])
       ]).

(** ** Looking into a rendered tree *)

(** The element and everything below it, in document order. *)
Fixpoint descendants (e : Element Page) : list (Element Page) :=
  e :: match e with
       | Modal _ _ kids => flat_map descendants kids
       | Div _ kids => flat_map descendants kids
       | _ => []
       end.

Definition is_back_control (e : Element Page) : bool :=
  match e with
  | IconButton c _ _ _ => String.eqb c "components-guide__back-button"
  | _ => false
  end.

Definition is_forward_control (e : Element Page) : bool :=
  match e with
  | IconButton c _ _ _ => String.eqb c "components-guide__forward-button"
  | _ => false
  end.

Definition is_finish_control (e : Element Page) : bool :=
  match e with
  | FinishButton _ _ _ => true
  | _ => false
  end.

Definition is_inline_finish_control (e : Element Page) : bool :=
  match e with
  | FinishButton c _ _ =>
      String.eqb c "components-guide__inline-finish-button"
  | _ => false
  end.

Definition is_footer_finish_control (e : Element Page) : bool :=
  match e with
  | FinishButton c _ _ => String.eqb c "components-guide__finish-button"
  | _ => false
  end.

(** What a render shows: the elements of the returned tree, none for
    [null]. *)
Definition rendered (out : option (Element Page)) : list (Element Page) :=
  match out with
  | Some v => descendants v
  | None => []
  end.

(** Whether a render shows an element of the given kind, and how many. *)
Definition shows (kind : Element Page -> bool)
  (out : option (Element Page)) : bool :=
  existsb kind (rendered out).

Definition how_many (kind : Element Page -> bool)
  (out : option (Element Page)) : nat :=
  List.length (filter kind (rendered out)).

(** The labels of the finish controls of a render, in document order. *)
Definition finish_labels (out : option (Element Page)) : list JSValue :=
  flat_map (fun e => match e with
                     | FinishButton _ _ l => [l]
                     | _ => []
                     end) (rendered out).

(** The handlers through which a render lets the user finish: the modal's
    close request and the click of every finish control. *)
Definition finish_handlers (out : option (Element Page)) : list Handler :=
  flat_map (fun e => match e with
                     | Modal _ h _ => [h]
                     | FinishButton _ h _ => [h]
                     | _ => []
                     end) (rendered out).

(** The setter the page indicator of a render was given. *)
Definition jump_handlers (out : option (Element Page))
  : list (Z -> Handler) :=
  flat_map (fun e => match e with
                     | PageControl _ _ f => [f]
                     | _ => []
                     end) (rendered out).

(** The handlers through which a render lets the user go back (the [left]
    shortcut and the click of the back control) and forward (the [right]
    shortcut and the click of the forward control). *)
Definition back_handlers (out : option (Element Page)) : list Handler :=
  flat_map (fun e => match e with
                     | KeyboardShortcuts _ l _ => [l]
                     | IconButton _ BackButtonIcon h _ => [h]
                     | _ => []
                     end) (rendered out).

Definition forward_handlers (out : option (Element Page)) : list Handler :=
  flat_map (fun e => match e with
                     | KeyboardShortcuts _ _ r => [r]
                     | IconButton _ ForwardButtonIcon h _ => [h]
                     | _ => []
                     end) (rendered out).

(** ** Running handlers *)

(** What the host page keeps outside the component, and what the callback
    supplied as [onFinish] does to it. *)
Variable Host : Type.
Variable onFinish_callback : Host -> Host.

(** The hook state of a mounted guide together with its host. *)
Record World : Type := mkWorld {
  state_currentPage : Z;
  host : Host
}.

(** [useState( 0 )] at mount. *)
Definition mount (h : Host) : World := mkWorld 0 h.

Definition run_cmd (w : World) (c : Cmd) : World :=
  match c with
  | SetCurrentPage page => mkWorld page (host w)
  | CallOnFinish => mkWorld (state_currentPage w) (onFinish_callback (host w))
  end.

(** Calling a handler: its effects, in order. *)
Definition call (h : Handler) (w : World) : World := fold_left run_cmd h w.

(** The actions of the user on a rendered guide. *)
Inductive Action : Type :=
| GoBack
| GoForward
| JumpTo (j : Z)
| Finish.

(** The handler an action reaches in the render of [currentPage]. *)
Definition handler_of (props : Props Page) (currentPage : Z) (a : Action)
  : Handler :=
  let numberOfPages := Children_count (children props) in
  match a with
  | GoBack => goBack currentPage
  | GoForward => goForward currentPage numberOfPages
  | JumpTo j => setCurrentPage j
  | Finish => onFinish
  end.

(** One action: the handler of the current render runs to completion, and
    the next render sees the state it left. *)
Definition step (props : Props Page) (w : World) (a : Action) : World :=
  call (handler_of props (state_currentPage w) a) w.

(** The states after each action of a sequence. *)
Fixpoint trace (props : Props Page) (w : World) (actions : list Action)
  : list World :=
  match actions with
  | [] => []
  | a :: rest => let w' := step props w a in w' :: trace props w' rest
  end.

Definition is_navigation (a : Action) : Prop := a = GoBack \/ a = GoForward.

(** [i] is an index into an array of [n] pages. *)
Definition valid_index (n i : Z) : Prop := 0 <= i <= n - 1.

End Guide.

Arguments Guide {Page} translate props currentPage.
Arguments descendants {Page} e.
Arguments is_back_control {Page} e.
Arguments is_forward_control {Page} e.
Arguments is_finish_control {Page} e.
Arguments is_inline_finish_control {Page} e.
Arguments is_footer_finish_control {Page} e.
Arguments rendered {Page} out.
Arguments shows {Page} kind out.
Arguments how_many {Page} kind out.
Arguments finish_labels {Page} out.
Arguments finish_handlers {Page} out.
Arguments jump_handlers {Page} out.
Arguments back_handlers {Page} out.
Arguments forward_handlers {Page} out.
Arguments mkWorld {Host} state_currentPage host.
Arguments state_currentPage {Host} w.
Arguments host {Host} w.
Arguments mount {Host} h.
Arguments run_cmd {Host} onFinish_callback w c.
Arguments call {Host} onFinish_callback h w.
Arguments handler_of {Page} props currentPage a.
Arguments step {Page Host} onFinish_callback props w a.
Arguments trace {Page Host} onFinish_callback props w actions.

(** ** A concrete guide

    Three pages of text, no class name, no finish text; English labels; a
    host that counts how often its callback ran. *)

Definition three_pages : Props string :=
  mkProps ["Welcome"; "Blocks"; "Done"] None JSUndefined.

Definition one_page : Props string :=
  mkProps ["Welcome"] None (JSString "").

Definition no_pages : Props string :=
  mkProps [] None JSUndefined.

Definition english (s : string) : string := s.

Definition count_call (calls : nat) : nat := S calls.

(** ** Sequences of actions on a guide *)

Section Runs.

Context {Page Host : Type}.
Variable onFinish_callback : Host -> Host.

(** The state a sequence of actions ends in: each action runs the handler of
    the render of the state the previous one left. *)
Definition run (props : Props Page) (w : World Host) (actions : list Action)
  : World Host :=
  fold_left (step onFinish_callback props) actions w.

End Runs.

Definition is_Finish (a : Action) : bool :=
  match a with
  | Finish => true
  | _ => false
  end.

(** How many of the actions are activations of a finish control. *)
Definition finish_count (actions : list Action) : nat :=
  List.length (filter is_Finish actions).

(** The actions that are left when the finish activations are dropped. *)
Definition without_finish (actions : list Action) : list Action :=
  filter (fun a => negb (is_Finish a)) actions.

(** The index a [JumpTo] carries is one of the [n] markers of the page
    indicator; the other actions carry none. *)
Definition in_range_action (n : Z) (a : Action) : Prop :=
  match a with
  | JumpTo j => valid_index n j
  | _ => True
  end.


(** The [key] of every [KeyboardShortcuts] element of a render. *)
Definition shortcut_keys {Page : Type} (out : option (Element Page))
  : list Z :=
  flat_map (fun e => match e with
                     | KeyboardShortcuts k _ _ => [k]
                     | _ => []
                     end) (rendered out).

(** * Block attributes and plain objects

    What the image block editor and the colour hook share: strict equality
    of values, object literals, and the attribute store of a block. *)

(** [a === b] on the values of [JSValue]: same kind and same content;
    objects by reference. *)
Definition js_strict_eq (a b : JSValue) : bool :=
  match a, b with
  | JSUndefined, JSUndefined => true
  | JSNull, JSNull => true
  | JSBool x, JSBool y => Bool.eqb x y
  | JSNumber x, JSNumber y => x =? y
  | JSString x, JSString y => String.eqb x y
  | JSObject x, JSObject y => Nat.eqb x y
  | _, _ => false
  end.

(** [a && b] of JavaScript: the left operand when it is falsy, the right one
    otherwise. *)
Definition js_and (a b : JSValue) : JSValue :=
  if truthy a then b else a.

(** An object literal: its entries, the one written last first, so that a
    later entry hides an earlier one with the same key. *)
Definition Obj : Type := list (string * JSValue).

(** The entry of a key, if the object has one. *)
Fixpoint obj_find (k : string) (o : Obj) : option JSValue :=
  match o with
  | [] => None
  | (k', v) :: rest => if String.eqb k k' then Some v else obj_find k rest
  end.

(** [o[ k ]]: [undefined] when the key is missing. *)
Definition obj_get (k : string) (o : Obj) : JSValue :=
  match obj_find k o with
  | Some v => v
  | None => JSUndefined
  end.

(** [o[ k ] = v]. *)
Definition obj_set (k : string) (v : JSValue) (o : Obj) : Obj := (k, v) :: o.

(** [{ ...a, ...b }]. *)
Definition obj_spread (a b : Obj) : Obj := b ++ a.

(** [omit( o, [ k ] )] of lodash. *)
Definition obj_omit (k : string) (o : Obj) : Obj :=
  filter (fun e => negb (String.eqb k (fst e))) o.

(** The attributes of a block: a value for every key, [undefined] for the
    keys that are not set. *)
Definition Attributes : Type := string -> JSValue.

(** [setAttributes( patch )]: the block editor merges the entries of the
    object into the attributes of the block and leaves the other keys. *)
Definition setAttributes (patch : Obj) (attributes : Attributes)
  : Attributes :=
  fun k => match obj_find k patch with
           | Some v => v
           | None => attributes k
           end.

(** Several calls of [setAttributes], in order. *)
Definition setAttributes_all (patches : list Obj) (attributes : Attributes)
  : Attributes :=
  fold_left (fun attrs patch => setAttributes patch attrs) patches attributes.

(** * The image block editor (packages/block-library, image edit) *)

Module ImageEdit.

(** The constants of [./constants] that the editor reads. *)
Record Constants : Type := mkConstants {
  LINK_DESTINATION_NONE : string;
  LINK_DESTINATION_MEDIA : string;
  LINK_DESTINATION_ATTACHMENT : string;
  LINK_DESTINATION_CUSTOM : string;
  DEFAULT_SIZE_SLUG : string
}.

(** A media object as the media library hands it over: the four keys that
    [pick] looks for may be missing; the other reads give [undefined] for
    what is missing. *)
Record Media : Type := mkMedia {
  media_alt : option JSValue;
  media_id : option JSValue;
  media_link : option JSValue;
  media_caption : option JSValue;
  media_url : JSValue;
  media_sizes_large_url : JSValue;
  media_details_sizes_large_source_url : JSValue
}.

(** Reading a key that may be missing. *)
Definition prop (field : option JSValue) : JSValue :=
  match field with
  | Some v => v
  | None => JSUndefined
  end.

(** The entry [pick] copies for a key, none when the key is missing. *)
Definition picked (k : string) (field : option JSValue) : Obj :=
  match field with
  | Some v => [(k, v)]
  | None => []
  end.

(** [pickRelevantMediaFiles( image )]. *)
Definition pickRelevantMediaFiles (image : Media) : Obj :=
  let imageProps :=
    picked "caption" (media_caption image)
    ++ picked "link" (media_link image)
    ++ picked "id" (media_id image)
    ++ picked "alt" (media_alt image) in
  obj_set "url"
    (js_or (js_or (media_sizes_large_url image)
                  (media_details_sizes_large_source_url image))
           (media_url image))
    imageProps.

Section Editor.

(** [isBlobURL] of [@wordpress/blob]. *)
Variable isBlobURL : JSValue -> bool.

Variable K : Constants.

(** [const isTemporaryImage = ( id, url ) => ! id && isBlobURL( url );] *)
Definition isTemporaryImage (id url : JSValue) : bool :=
  negb (truthy id) && isBlobURL url.

(** [const isExternalImage = ( id, url ) => url && ! id && ! isBlobURL( url );]
    The result is [url] itself when that is falsy. *)
Definition isExternalImage (id url : JSValue) : JSValue :=
  js_and url (JSBool (negb (truthy id) && negb (isBlobURL url))).

(** [onSelectImage( media )]: the objects handed to [setAttributes], in
    order. [None] is a [media] that is [null] or [undefined]. *)
Definition onSelectImage (attributes : Attributes) (media : option Media)
  : list Obj :=
  match media with
  | None =>
      [ [ ("caption", JSUndefined); ("title", JSUndefined);
          ("id", JSUndefined); ("alt", JSUndefined);
          ("url", JSUndefined) ] ]
  | Some media =>
      if negb (truthy (media_url media)) then
        [ [ ("caption", JSUndefined); ("title", JSUndefined);
            ("id", JSUndefined); ("alt", JSUndefined);
            ("url", JSUndefined) ] ]
      else
        let id := attributes "id" in
        let url := attributes "url" in
        let alt := attributes "alt" in
        let caption := attributes "caption" in
        let linkDestination := attributes "linkDestination" in
        let mediaAttributes := pickRelevantMediaFiles media in
        let mediaAttributes :=
          if isTemporaryImage id url then
            let mediaAttributes :=
              if truthy alt then obj_omit "alt" mediaAttributes
              else mediaAttributes in
            if truthy caption then obj_omit "caption" mediaAttributes
            else mediaAttributes
          else mediaAttributes in
        let additionalAttributes :=
          if negb (truthy (prop (media_id media)))
             || negb (js_strict_eq (prop (media_id media)) id)
          then [ ("sizeSlug", JSString (DEFAULT_SIZE_SLUG K));
                 ("height", JSUndefined); ("width", JSUndefined) ]
          else [ ("url", url) ] in
        let mediaAttributes :=
          if js_strict_eq linkDestination
               (JSString (LINK_DESTINATION_MEDIA K))
          then obj_set "href" (media_url media) mediaAttributes
          else mediaAttributes in
        let mediaAttributes :=
          if js_strict_eq linkDestination
               (JSString (LINK_DESTINATION_ATTACHMENT K))
          then obj_set "href" (prop (media_link media)) mediaAttributes
          else mediaAttributes in
        [ obj_spread mediaAttributes additionalAttributes ]
  end.

(** [onSelectURL( newURL )]. *)
Definition onSelectURL (attributes : Attributes) (newURL : JSValue)
  : list Obj :=
  let url := attributes "url" in
  if negb (js_strict_eq newURL url) then
    [ [ ("sizeSlug", JSString (DEFAULT_SIZE_SLUG K)); ("id", JSUndefined);
        ("url", newURL) ] ]
  else [].

(** The localisation function [__] of [@wordpress/i18n]. *)
Variable translate : string -> string.

(** [this.props.image]: [null] unless the block is selected and has an id,
    then what [getMedia] returns, which is [undefined] until the media is
    loaded. *)
Inductive ImageProp : Type :=
| ImageNull
| ImageUndefined
| ImageData (source_url link : JSValue).

(** [this.props.image && this.props.image.source_url] *)
Definition image_source_url (image : ImageProp) : JSValue :=
  match image with
  | ImageNull => JSNull
  | ImageUndefined => JSUndefined
  | ImageData source_url _ => source_url
  end.

(** [this.props.image && this.props.image.link] *)
Definition image_link (image : ImageProp) : JSValue :=
  match image with
  | ImageNull => JSNull
  | ImageUndefined => JSUndefined
  | ImageData _ link => link
  end.

Inductive LinkIcon : Type := ImageBlockIcon | AttachmentPageIcon.

Record LinkDestination : Type := mkLinkDestination {
  linkDestination : string;
  title : string;
  url : JSValue;
  icon : LinkIcon
}.

(** [getLinkDestinations()] *)
Definition getLinkDestinations (attributes : Attributes) (image : ImageProp)
  : list LinkDestination :=
  [ mkLinkDestination (LINK_DESTINATION_MEDIA K) (translate "Media File")
      (js_or (image_source_url image) (attributes "url")) ImageBlockIcon;
    mkLinkDestination (LINK_DESTINATION_ATTACHMENT K)
      (translate "Attachment Page") (image_link image) AttachmentPageIcon ].

(** The link destination [onSetHref] works out for a value. *)
Definition linkDestinationInput (attributes : Attributes)
  (image : ImageProp) (value : JSValue) : string :=
  if negb (truthy value) then LINK_DESTINATION_NONE K
  else match find (fun destination => js_strict_eq (url destination) value)
                  (getLinkDestinations attributes image) with
       | Some destination => linkDestination destination
       | None => LINK_DESTINATION_CUSTOM K
       end.

(** [onSetHref( value )] *)
Definition onSetHref (attributes : Attributes) (image : ImageProp)
  (value : JSValue) : list Obj :=
  let linkDestination := attributes "linkDestination" in
  let linkDestinationInput := linkDestinationInput attributes image value in
  if negb (js_strict_eq linkDestination (JSString linkDestinationInput))
  then [ [ ("href", value);
           ("linkDestination", JSString linkDestinationInput) ] ]
  else [ [ ("href", value) ] ].

(** [[ 'wide', 'full' ].indexOf( align ) !== -1] *)
Definition is_wide_or_full (align : JSValue) : bool :=
  js_strict_eq (JSString "wide") align || js_strict_eq (JSString "full") align.

(** [updateAlignment( nextAlign )] *)
Definition updateAlignment (nextAlign : JSValue) : list Obj :=
  let extraUpdatedAttributes :=
    if is_wide_or_full nextAlign
    then [ ("height", JSUndefined); ("width", JSUndefined) ]
    else [] in
  [ obj_spread extraUpdatedAttributes [ ("align", nextAlign) ] ].

(** [const isResizable = [ 'wide', 'full' ].indexOf( align ) === -1 &&
    isLargeViewport;] *)
Definition isResizable (align isLargeViewport : JSValue) : JSValue :=
  js_and (JSBool (negb (is_wide_or_full align))) isLargeViewport.

(** The handles of the resizable box: [( showRightHandle, showLeftHandle )]. *)
Definition resize_handles (align isRTL : JSValue) : bool * bool :=
  if js_strict_eq align (JSString "center") then (true, true)
  else if truthy isRTL then
    if js_strict_eq align (JSString "left") then (true, false)
    else (false, true)
  else
    if js_strict_eq align (JSString "right") then (false, true)
    else (true, false).

(** The alignment of the mirrored layout: left and right change places. *)
Definition mirror_align (align : JSValue) : JSValue :=
  if js_strict_eq align (JSString "left") then JSString "right"
  else if js_strict_eq align (JSString "right") then JSString "left"
  else align.

(** ** The link popover of the toolbar ([ImageURLInputUI]) *)

Inductive UICmd : Type :=
| SetIsOpen (b : bool)
| SetIsEditingLink (b : bool)
| SetUrlInput (v : JSValue)
| OnChangeUrl (v : JSValue)
| PreventDefault.

Definition UIHandler : Type := list UICmd.

(** The three hooks of the component. *)
Record UIState : Type := mkUIState {
  isOpen : bool;
  isEditingLink : bool;
  urlInput : JSValue
}.

(** [useState( false )], [useState( false )], [useState( null )]. *)
Definition ui_initial : UIState := mkUIState false false JSNull.

Record UIProps (Options : Type) : Type := mkUIProps {
  ui_advancedOptions : Options;
  ui_linkDestination : JSValue;
  ui_mediaLinks : list LinkDestination;
  ui_url : JSValue
}.

Arguments mkUIProps {Options} _ _ _ _.
Arguments ui_advancedOptions {Options} _.
Arguments ui_linkDestination {Options} _.
Arguments ui_mediaLinks {Options} _.
Arguments ui_url {Options} _.

Definition openLinkUI : UIHandler := [ SetIsOpen true ].

Definition startEditLink (linkDestination : JSValue) : UIHandler :=
  (if js_strict_eq linkDestination (JSString (LINK_DESTINATION_MEDIA K))
      || js_strict_eq linkDestination
           (JSString (LINK_DESTINATION_ATTACHMENT K))
   then [ SetUrlInput (JSString "") ] else [])
  ++ [ SetIsEditingLink true ].

Definition stopEditLink : UIHandler := [ SetIsEditingLink false ].

Definition closeLinkUI : UIHandler :=
  [ SetUrlInput JSNull ] ++ stopEditLink ++ [ SetIsOpen false ].

(** The handler [onClickOutside()] returns; the argument tells whether the
    autocomplete element exists and contains the target of the click. *)
Definition onClickOutside (in_autocomplete : bool) : UIHandler :=
  if in_autocomplete then []
  else [ SetIsOpen false; SetUrlInput JSNull ] ++ stopEditLink.

(** The handler [onSubmitLinkChange()] returns. *)
Definition onSubmitLinkChange (urlInput : JSValue) : UIHandler :=
  (if truthy urlInput then [ OnChangeUrl urlInput ] else [])
  ++ stopEditLink ++ [ SetUrlInput JSNull; PreventDefault ].

Definition onLinkRemove : UIHandler :=
  closeLinkUI ++ [ OnChangeUrl (JSString "") ].

(** The click of the menu item of a media link. *)
Definition onMenuItemClick (link : LinkDestination) : UIHandler :=
  [ SetUrlInput JSNull; OnChangeUrl (url link) ] ++ stopEditLink.

(** [const linkEditorValue = urlInput !== null ? urlInput : url;] *)
Definition linkEditorValue (urlInput url : JSValue) : JSValue :=
  if negb (js_strict_eq urlInput JSNull) then urlInput else url.

(** [( find( mediaLinks, [ 'linkDestination', linkDestination ] ) || {} ).title] *)
Definition urlLabel (mediaLinks : list LinkDestination)
  (linkDestination_prop : JSValue) : JSValue :=
  match find (fun link => js_strict_eq (JSString (linkDestination link))
                            linkDestination_prop) mediaLinks with
  | Some link => JSString (title link)
  | None => JSUndefined
  end.

Record MenuItem : Type := mkMenuItem {
  item_key : string;
  item_icon : LinkIcon;
  item_onClick : UIHandler;
  item_label : string
}.

(** The elements of the popover, with the props that vary; class names,
    icons, the key handlers that only stop the propagation of the event and
    the ref of the autocomplete element are the same in every render and
    are left out. *)
#[warnings="-register-all"]
Inductive UIElement (Options : Type) : Type :=
| ToolbarLinkButton (label : string) (ariaExpanded : bool)
                    (onClick : UIHandler)
| URLPopover (onClickOutside : bool -> UIHandler) (onClose : UIHandler)
             (renderSettings : Options)
             (additionalControls : option (list MenuItem))
             (children : list (UIElement Options))
| LinkEditor (value : JSValue) (onChangeInputValue : JSValue -> UIHandler)
             (onSubmit : UIHandler)
| LinkViewer (url : JSValue) (onEditLinkClick : UIHandler)
             (urlLabel : JSValue)
| RemoveLinkButton (label : string) (onClick : UIHandler).

Arguments ToolbarLinkButton {Options} _ _ _.
Arguments URLPopover {Options} _ _ _ _ _.
Arguments LinkEditor {Options} _ _ _.
Arguments LinkViewer {Options} _ _ _.
Arguments RemoveLinkButton {Options} _ _.

(** The function body of [ImageURLInputUI] for the state of its hooks: the
    elements of the fragment it returns. *)
Definition ImageURLInputUI {Options : Type} (props : UIProps Options)
  (state : UIState) : list (UIElement Options) :=
  let url := ui_url props in
  let linkEditorValue := linkEditorValue (urlInput state) url in
  [ ToolbarLinkButton
      (if truthy url then translate "Edit link" else translate "Insert link")
      (isOpen state) openLinkUI ]
  ++ (if isOpen state then
        [ URLPopover onClickOutside closeLinkUI (ui_advancedOptions props)
            (if negb (truthy linkEditorValue)
             then Some (map (fun link =>
                               mkMenuItem (linkDestination link) (icon link)
                                 (onMenuItemClick link) (title link))
                            (ui_mediaLinks props))
             else None)
            ((if negb (truthy url) || isEditingLink state
              then [ LinkEditor linkEditorValue
                       (fun v => [ SetUrlInput v ])
                       (onSubmitLinkChange (urlInput state)) ]
              else [])
             ++ (if truthy url && negb (isEditingLink state)
                 then [ LinkViewer url
                          (startEditLink (ui_linkDestination props))
                          (urlLabel (ui_mediaLinks props)
                                    (ui_linkDestination props));
                        RemoveLinkButton (translate "Remove link")
                          onLinkRemove ]
                 else [])) ]
      else []).

(** What running a handler of the popover leaves: the hooks, the values
    [onChangeUrl] was called with (oldest first) and how often the default
    action of the event was prevented. *)
Record UIWorld : Type := mkUIWorld {
  ui_state : UIState;
  url_changes : list JSValue;
  prevented : nat
}.

(** What a command does to the hooks. *)
Definition ui_state_cmd (st : UIState) (c : UICmd) : UIState :=
  match c with
  | SetIsOpen b => mkUIState b (isEditingLink st) (urlInput st)
  | SetIsEditingLink b => mkUIState (isOpen st) b (urlInput st)
  | SetUrlInput v => mkUIState (isOpen st) (isEditingLink st) v
  | OnChangeUrl _ => st
  | PreventDefault => st
  end.

Definition ui_run_cmd (w : UIWorld) (c : UICmd) : UIWorld :=
  mkUIWorld (ui_state_cmd (ui_state w) c)
            (match c with
             | OnChangeUrl v => url_changes w ++ [v]
             | _ => url_changes w
             end)
            (match c with
             | PreventDefault => S (prevented w)
             | _ => prevented w
             end).

Definition ui_call (h : UIHandler) (w : UIWorld) : UIWorld :=
  fold_left ui_run_cmd h w.

(** The editors and viewers inside the popovers of a render. *)
Definition popover_children {Options : Type}
  (out : list (UIElement Options)) : list (UIElement Options) :=
  flat_map (fun e => match e with
                     | URLPopover _ _ _ _ kids => kids
                     | _ => []
                     end) out.

Definition is_LinkEditor {Options : Type} (e : UIElement Options) : bool :=
  match e with
  | LinkEditor _ _ _ => true
  | _ => false
  end.

Definition is_LinkViewer {Options : Type} (e : UIElement Options) : bool :=
  match e with
  | LinkViewer _ _ _ => true
  | _ => false
  end.

(** ** Events on the popover

    What the user can do to a rendered popover. An event runs the handler
    that the render of the current state gives to the element it lands on;
    when the render has no such element, nothing runs. *)

Inductive UIEvent : Type :=
| ClickLinkButton
| ClickOutsidePopover (in_autocomplete : bool)
| ClosePopover
| TypeUrl (v : JSValue)
| SubmitUrl
| ClickEditLink
| ClickRemoveLink
| ClickMenuItem (index : nat).

Definition element_handlers {Options : Type} (ev : UIEvent)
  (e : UIElement Options) : list UIHandler :=
  match ev, e with
  | ClickLinkButton, ToolbarLinkButton _ _ h => [h]
  | ClickOutsidePopover b, URLPopover f _ _ _ _ => [f b]
  | ClosePopover, URLPopover _ h _ _ _ => [h]
  | ClickMenuItem n, URLPopover _ _ _ (Some items) _ =>
      match nth_error items n with
      | Some item => [item_onClick item]
      | None => []
      end
  | TypeUrl v, LinkEditor _ f _ => [f v]
  | SubmitUrl, LinkEditor _ _ h => [h]
  | ClickEditLink, LinkViewer _ h _ => [h]
  | ClickRemoveLink, RemoveLinkButton _ h => [h]
  | _, _ => []
  end.

Definition handlers_for {Options : Type} (ev : UIEvent)
  (out : list (UIElement Options)) : list UIHandler :=
  flat_map (element_handlers ev) (out ++ popover_children out).

Definition ui_dispatch {Options : Type} (props : UIProps Options)
  (w : UIWorld) (ev : UIEvent) : UIWorld :=
  match handlers_for ev (ImageURLInputUI props (ui_state w)) with
  | h :: _ => ui_call h w
  | [] => w
  end.

(** A sequence of events, each against the props of its render. *)
Definition ui_run {Options : Type}
  (steps : list (UIProps Options * UIEvent)) (w : UIWorld) : UIWorld :=
  fold_left (fun w step => ui_dispatch (fst step) w (snd step)) steps w.

(** ** The popover inside the editor

    The toolbar of the editor renders the popover with
    [url={ href || '' }], [onChangeUrl={ this.onSetHref }],
    [mediaLinks={ this.getLinkDestinations() }] and
    [linkDestination={ linkDestination }]. *)

Definition link_props {Options : Type} (advancedOptions : Options)
  (attributes : Attributes) (image : ImageProp) : UIProps Options :=
  mkUIProps advancedOptions (attributes "linkDestination")
    (getLinkDestinations attributes image)
    (js_or (attributes "href") (JSString "")).

(** The attributes of the block together with the hooks of its popover. *)
Record EditorWorld : Type := mkEditorWorld {
  ed_attributes : Attributes;
  ed_ui : UIState
}.

(** A command of a popover handler inside the editor: [onChangeUrl] is
    [onSetHref], whose objects go to [setAttributes]. *)
Definition editor_run_cmd (image : ImageProp) (w : EditorWorld) (c : UICmd)
  : EditorWorld :=
  mkEditorWorld
    (match c with
     | OnChangeUrl v =>
         setAttributes_all (onSetHref (ed_attributes w) image v)
                           (ed_attributes w)
     | _ => ed_attributes w
     end)
    (ui_state_cmd (ed_ui w) c).

Definition editor_call (image : ImageProp) (h : UIHandler) (w : EditorWorld)
  : EditorWorld :=
  fold_left (editor_run_cmd image) h w.

(** The popover as the editor renders it in a state (the toolbar holds it
    while the block has a [url]). *)
Definition editor_link_ui {Options : Type} (advancedOptions : Options)
  (image : ImageProp) (w : EditorWorld) : list (UIElement Options) :=
  ImageURLInputUI (link_props advancedOptions (ed_attributes w) image)
                  (ed_ui w).

End Editor.

Arguments mkUIProps {Options} _ _ _ _.
Arguments ui_advancedOptions {Options} _.
Arguments ui_linkDestination {Options} _.
Arguments ui_mediaLinks {Options} _.
Arguments ui_url {Options} _.
Arguments ToolbarLinkButton {Options} _ _ _.
Arguments URLPopover {Options} _ _ _ _ _.
Arguments LinkEditor {Options} _ _ _.
Arguments LinkViewer {Options} _ _ _.
Arguments RemoveLinkButton {Options} _ _.

End ImageEdit.

(** * The colour hook ([__experimentalUseColors]) *)

Module UseColors.

(** An entry of a colour palette. *)
Record Color : Type := mkColor {
  name : string;
  slug : string;
  color : JSValue
}.

(** What the hook reads of a colour configuration: its name, the colour it
    falls back to and its own palette when it has one. *)
Record ColorConfig : Type := mkColorConfig {
  config_name : string;
  config_color : JSValue;
  config_colors : option (list Color)
}.

Section Hook.

(** [name => camelCase( `custom ${ name }` )] with the [camelCase] of
    lodash. *)
Variable custom_key : string -> string.

(** The function [createSetColor( name, colors )] returns, applied to
    [newColor]: the objects handed to [setAttributes], in order. *)
Definition setColor (name : string) (colors : list Color)
  (newColor : JSValue) : list Obj :=
  let color := find (fun _color => js_strict_eq (color _color) newColor)
                    colors in
  [ [ (match color with
       | Some _ => custom_key name
       | None => name
       end, JSUndefined) ];
    [ (match color with
       | Some _ => name
       | None => custom_key name
       end,
       match color with
       | Some color => JSString (slug color)
       | None => newColor
       end) ] ].

(** The slug of a configuration: the [color] attribute of its name, the
    default of the configuration when that is [undefined]. *)
Definition config_slug (attributes : Attributes) (colorConfig : ColorConfig)
  : JSValue :=
  match attributes (config_name colorConfig) with
  | JSUndefined => config_color colorConfig
  | color => color
  end.

(** The palette of a configuration: its own, or the one of the settings. *)
Definition config_palette (settingsColors : list Color)
  (colorConfig : ColorConfig) : list Color :=
  match config_colors colorConfig with
  | Some colors => colors
  | None => settingsColors
  end.

(** [const _color = customColor ? undefined :
       colors.find( ( __color ) => __color.slug === color );] *)
Definition palette_color (attributes : Attributes)
  (settingsColors : list Color) (colorConfig : ColorConfig) : option Color :=
  let customColor := attributes (custom_key (config_name colorConfig)) in
  if truthy customColor then None
  else find (fun __color =>
               js_strict_eq (JSString (slug __color))
                            (config_slug attributes colorConfig))
            (config_palette settingsColors colorConfig).

(** [acc[ componentName ].color = customColor ? customColor :
       _color && _color.color;] *)
Definition component_color (attributes : Attributes)
  (settingsColors : list Color) (colorConfig : ColorConfig) : JSValue :=
  let customColor := attributes (custom_key (config_name colorConfig)) in
  if truthy customColor then customColor
  else match palette_color attributes settingsColors colorConfig with
       | Some _color => color _color
       | None => JSUndefined
       end.

(** The [value] of the entry of [colorSettings]:
    [_color ? _color.color : attributes[ camelCase( `custom ${ name }` ) ]]. *)
Definition setting_value (attributes : Attributes)
  (settingsColors : list Color) (colorConfig : ColorConfig) : JSValue :=
  match palette_color attributes settingsColors colorConfig with
  | Some _color => color _color
  | None => attributes (custom_key (config_name colorConfig))
  end.

End Hook.

(** ** The colour detector *)

(** What the detector reads of a contrast checker. *)
Record ContrastChecker : Type := mkContrastChecker {
  backgroundColor : JSValue;
  textColor : JSValue
}.

(** The [contrastCheckers] option: missing, an array, or a single object. *)
Inductive ContrastCheckers : Type :=
| NoCheckers
| CheckerArray (checkers : list ContrastChecker)
| CheckerObject (checker : ContrastChecker).

(** [castArray( contrastCheckers )] of lodash. *)
Definition castArray (contrastCheckers : ContrastCheckers)
  : list ContrastChecker :=
  match contrastCheckers with
  | NoCheckers => []
  | CheckerArray checkers => checkers
  | CheckerObject checker => [checker]
  end.

(** The [for ... of] loop over the checkers, from the values the two flags
    have before an iteration. *)
Fixpoint scan_needs (checkers : list ContrastChecker)
  (needsBackgroundColor needsColor : bool) : bool * bool :=
  match checkers with
  | [] => (needsBackgroundColor, needsColor)
  | checker :: rest =>
      let needsBackgroundColor :=
        if negb needsBackgroundColor
        then js_strict_eq (backgroundColor checker) (JSBool true)
        else needsBackgroundColor in
      let needsColor :=
        if negb needsColor
        then js_strict_eq (textColor checker) (JSBool true)
        else needsColor in
      if needsBackgroundColor && needsColor
      then (needsBackgroundColor, needsColor)
      else scan_needs rest needsBackgroundColor needsColor
  end.

(** Whether the hook builds a [ColorDetector] component; otherwise the
    value is [undefined] or [false]. *)
Definition has_ColorDetector (contrastCheckers : ContrastCheckers) : bool :=
  match contrastCheckers with
  | NoCheckers => false
  | _ =>
      let (needsBackgroundColor, needsColor) :=
        scan_needs (castArray contrastCheckers) false false in
      needsBackgroundColor || needsColor
  end.


End UseColors.

(** ** Concrete blocks and palettes *)

(** A blob url test that looks for the [blob:] scheme. *)
Definition starts_with_blob (v : JSValue) : bool :=
  match v with
  | JSString s => String.prefix "blob:" s
  | _ => false
  end.

Definition image_constants : ImageEdit.Constants :=
  ImageEdit.mkConstants "none" "media" "attachment" "custom" "large".

(** The attributes that an object literal sets, all others undefined. *)
Definition attributes_of (o : Obj) : Attributes :=
  setAttributes o (fun _ => JSUndefined).

(** A block whose image is still being uploaded, with an alt text typed in
    the meantime. *)
Definition uploading_block : Attributes :=
  attributes_of [ ("alt", JSString "A cat"); ("url", JSString "blob:1234") ].

(** A block that shows media 7 at medium size, resized and linked to the
    media file. *)
Definition library_block : Attributes :=
  attributes_of
    [ ("href", JSString "https://example.org/cat.jpg");
      ("linkDestination", JSString "media");
      ("sizeSlug", JSString "medium");
      ("width", JSNumber 300);
      ("url", JSString "https://example.org/cat-300.jpg");
      ("id", JSNumber 7) ].

Definition media_7 : ImageEdit.Media :=
  ImageEdit.mkMedia (Some (JSString "")) (Some (JSNumber 7))
    (Some (JSString "https://example.org/?attachment_id=7"))
    (Some (JSString "")) (JSString "https://example.org/cat.jpg")
    JSUndefined (JSString "https://example.org/cat-1024.jpg").

Definition media_8 : ImageEdit.Media :=
  ImageEdit.mkMedia (Some (JSString "A dog")) (Some (JSNumber 8))
    (Some (JSString "https://example.org/?attachment_id=8"))
    (Some (JSString "")) (JSString "https://example.org/dog.jpg")
    JSUndefined JSUndefined.

Definition media_without_url : ImageEdit.Media :=
  ImageEdit.mkMedia None (Some (JSNumber 9)) None None JSUndefined
    JSUndefined JSUndefined.

Definition image_7 : ImageEdit.ImageProp :=
  ImageEdit.ImageData (JSString "https://example.org/cat.jpg")
    (JSString "https://example.org/?attachment_id=7").

Definition palette : list UseColors.Color :=
  [ UseColors.mkColor "Red" "red" (JSString "#f00");
    UseColors.mkColor "Blue" "blue" (JSString "#00f") ].

Definition textColor_config : UseColors.ColorConfig :=
  UseColors.mkColorConfig "textColor" JSUndefined None.

(** A key for the custom colour of a name: the name behind [custom-]. *)
Definition custom_dash (name : string) : string :=
  String.append "custom-" name.

(** * Properties *)

Section Properties.

Context {Page Host : Type}.
Variable translate : string -> string.
Variable onFinish_callback : Host -> Host.

Implicit Type props : Props Page.
Implicit Type w : World Host.
Implicit Type a : Action.
Implicit Type actions : list Action.
Implicit Types i j n page : Z.

(** ** Handlers *)

Lemma call_nil w : call onFinish_callback [] w = w.
Proof. reflexivity. Qed.

Lemma call_setCurrentPage page w :
  call onFinish_callback (setCurrentPage page) w = mkWorld page (host w).
Proof. reflexivity. Qed.

Lemma call_onFinish w :
  call onFinish_callback onFinish w =
  mkWorld (state_currentPage w) (onFinish_callback (host w)).
Proof. reflexivity. Qed.

Lemma world_eta w : mkWorld (state_currentPage w) (host w) = w.
Proof. destruct w; reflexivity. Qed.

Lemma canGoBack_spec i : canGoBack i = true <-> 0 < i.
Proof. unfold canGoBack; apply Z.ltb_lt. Qed.

Lemma canGoForward_spec i n : canGoForward i n = true <-> i < n - 1.
Proof. unfold canGoForward; apply Z.ltb_lt. Qed.

Lemma canGoBack_false i : canGoBack i = false <-> i <= 0.
Proof. unfold canGoBack; rewrite Z.ltb_ge; reflexivity. Qed.

Lemma canGoForward_false i n : canGoForward i n = false <-> n - 1 <= i.
Proof. unfold canGoForward; rewrite Z.ltb_ge; reflexivity. Qed.

Lemma step_GoBack props w :
  step onFinish_callback props w GoBack =
  if canGoBack (state_currentPage w)
  then mkWorld (state_currentPage w - 1) (host w) else w.
Proof.
  unfold step, handler_of, goBack.
  destruct (canGoBack (state_currentPage w)); reflexivity.
Qed.

Lemma step_GoForward props w :
  step onFinish_callback props w GoForward =
  if canGoForward (state_currentPage w) (Children_count (children props))
  then mkWorld (state_currentPage w + 1) (host w) else w.
Proof.
  unfold step, handler_of, goForward.
  destruct (canGoForward _ _); reflexivity.
Qed.

Lemma step_navigation_valid props w a :
  is_navigation a ->
  valid_index (Children_count (children props)) (state_currentPage w) ->
  valid_index (Children_count (children props))
              (state_currentPage (step onFinish_callback props w a)).
Proof.
  unfold valid_index; intros [-> | ->] Hi.
  - rewrite step_GoBack.
    destruct (canGoBack (state_currentPage w)) eqn:E; cbn; [|exact Hi].
    apply canGoBack_spec in E; lia.
  - rewrite step_GoForward.
    destruct (canGoForward _ _) eqn:E; cbn; [|exact Hi].
    apply canGoForward_spec in E; lia.
Qed.

Lemma trace_navigation_valid props actions :
  Forall is_navigation actions ->
  forall w,
    valid_index (Children_count (children props)) (state_currentPage w) ->
    Forall (fun w' => valid_index (Children_count (children props))
                                  (state_currentPage w'))
           (trace onFinish_callback props w actions).
Proof.
  induction 1 as [|a rest Ha _ IH]; intros w Hw; cbn.
  - constructor.
  - pose proof (step_navigation_valid props w a Ha Hw) as Hstep.
    constructor; [exact Hstep | apply IH; exact Hstep].
Qed.

(** ** The rendered tree *)

Lemma Guide_pages props i :
  Children_count (children props) > 0 ->
  (Children_count (children props) =? 0) = false.
Proof. intros H; apply Z.eqb_neq; lia. Qed.

(** Unfolds one render of a guide that has pages and splits on the two
    availability flags. *)
Ltac render_cases props i Hpages :=
  unfold shows, how_many, finish_labels, finish_handlers, jump_handlers,
    back_handlers, forward_handlers, rendered, Guide;
  rewrite (Guide_pages props i Hpages);
  destruct (canGoBack i), (canGoForward i (Children_count (children props)));
  cbn.

Lemma finish_handlers_Guide props i :
  Children_count (children props) > 0 ->
  finish_handlers (Guide translate props i) =
  onFinish :: (if canGoForward i (Children_count (children props))
               then [] else [onFinish; onFinish]).
Proof. intros Hpages; render_cases props i Hpages; reflexivity. Qed.

Lemma finish_labels_Guide props i :
  Children_count (children props) > 0 ->
  finish_labels (Guide translate props i) =
  if canGoForward i (Children_count (children props)) then []
  else [ js_or (finishButtonText props) (JSString (translate "Finish"));
         js_or (finishButtonText props) (JSString (translate "Finish")) ].
Proof. intros Hpages; render_cases props i Hpages; reflexivity. Qed.

(** The handlers a render exposes for going back and forward are the ones
    [handler_of] gives for these actions. *)
Lemma navigation_handlers_Guide props i :
  Children_count (children props) > 0 ->
  Forall (eq (handler_of props i GoBack))
         (back_handlers (Guide translate props i))
  /\ Forall (eq (handler_of props i GoForward))
            (forward_handlers (Guide translate props i)).
Proof.
  intros Hpages; unfold handler_of.
  render_cases props i Hpages; split; repeat constructor.
Qed.

(** ** Claims *)

(** C1. With at least one page, every sequence of goBack and goForward
    actions applied to the freshly mounted guide (currentPage = 0) leaves
    currentPage within [0, numberOfPages - 1] after each action. *)
Theorem currentPage_stays_valid props (h : Host) actions :
  Children_count (children props) > 0 ->
  Forall is_navigation actions ->
  Forall (fun w' => valid_index (Children_count (children props))
                                (state_currentPage w'))
         (trace onFinish_callback props (mount h) actions).
Proof.
  intros Hpages Hnav.
  apply trace_navigation_valid; [exact Hnav|].
  unfold valid_index, mount; cbn; lia.
Qed.

(** C2, as amended. The page indicator is handed the bare state setter, and
    jumpTo(j) stores j as currentPage for every j, inside [0, N - 1] or not;
    the host is left alone. *)
Theorem jumpTo_sets_currentPage props i w j :
  jump_handlers (Guide translate props i) =
    (if Children_count (children props) =? 0 then [] else [setCurrentPage])
  /\ step onFinish_callback props w (JumpTo j) = mkWorld j (host w).
Proof.
  split; [|reflexivity].
  unfold jump_handlers, rendered, Guide.
  destruct (Children_count (children props) =? 0); [reflexivity|].
  destruct (canGoBack i), (canGoForward i (Children_count (children props)));
    reflexivity.
Qed.

(** C3. goBack on the first page and goForward on the last page do nothing:
    the handler has no effect to run and the state after it is the state
    before it. *)
Theorem navigation_outside_precondition_ignored props w :
  (state_currentPage w = 0 ->
     handler_of props (state_currentPage w) GoBack = []
     /\ step onFinish_callback props w GoBack = w)
  /\ (state_currentPage w = Children_count (children props) - 1 ->
     handler_of props (state_currentPage w) GoForward = []
     /\ step onFinish_callback props w GoForward = w).
Proof.
  split; intros Hi.
  - assert (E : canGoBack (state_currentPage w) = false)
      by (apply canGoBack_false; lia).
    rewrite step_GoBack; unfold handler_of, goBack; rewrite E; auto.
  - assert (E : canGoForward (state_currentPage w)
                  (Children_count (children props)) = false)
      by (apply canGoForward_false; lia).
    rewrite step_GoForward; unfold handler_of, goForward; rewrite E; auto.
Qed.

(** C4. For N > 0 and currentPage in [0, N - 1]: canGoBack is true exactly
    when currentPage > 0 and false exactly when currentPage = 0; canGoForward
    is true exactly when currentPage < N - 1 and false exactly when
    currentPage = N - 1. *)
Theorem navigation_availability n i :
  n > 0 -> valid_index n i ->
  (canGoBack i = true <-> i > 0)
  /\ (canGoBack i = false <-> i = 0)
  /\ (canGoForward i n = true <-> i < n - 1)
  /\ (canGoForward i n = false <-> i = n - 1).
Proof.
  unfold valid_index; intros Hn Hi.
  rewrite canGoBack_spec, canGoBack_false, canGoForward_spec,
    canGoForward_false.
  repeat split; lia.
Qed.

(** C5. A guide without pages renders nothing: the render returns null, so
    no page content and no control is shown, whatever the hook state. *)
Theorem empty_guide_renders_nothing props i :
  Children_count (children props) = 0 ->
  Guide translate props i = None
  /\ rendered (Guide translate props i) = [].
Proof.
  intros H; unfold Guide; rewrite H; cbn; auto.
Qed.

(** C6. When goForward is allowed and goBack is allowed after it
    (0 < currentPage + 1 <= N - 1), goForward moves to currentPage + 1 and
    goBack right after it restores the state before the goForward. *)
Theorem goForward_then_goBack props w :
  0 < state_currentPage w + 1 <= Children_count (children props) - 1 ->
  state_currentPage (step onFinish_callback props w GoForward) =
    state_currentPage w + 1
  /\ step onFinish_callback props
       (step onFinish_callback props w GoForward) GoBack = w.
Proof.
  intros Hi.
  assert (F : canGoForward (state_currentPage w)
                (Children_count (children props)) = true)
    by (apply canGoForward_spec; lia).
  assert (B : canGoBack (state_currentPage w + 1) = true)
    by (apply canGoBack_spec; lia).
  rewrite step_GoForward, F; split; [reflexivity|].
  rewrite step_GoBack; cbn; rewrite B.
  replace (state_currentPage w + 1 - 1) with (state_currentPage w) by lia.
  apply world_eta.
Qed.

(** C7. In every state of a guide that has pages the render offers a way to
    finish (the modal's close request at least); each such handler, when
    activated, calls the supplied onFinish callback exactly once and leaves
    currentPage as it was. *)
Theorem finish_calls_onFinish_once props i :
  Children_count (children props) > 0 ->
  In (handler_of props i Finish) (finish_handlers (Guide translate props i))
  /\ forall h,
       In h (finish_handlers (Guide translate props i)) ->
       onFinish_calls h = 1%nat
       /\ forall w,
            state_currentPage (call onFinish_callback h w) =
              state_currentPage w
            /\ host (call onFinish_callback h w) =
                 onFinish_callback (host w).
Proof.
  intros Hpages; rewrite (finish_handlers_Guide props i Hpages).
  split; [left; reflexivity|].
  intros h Hh.
  assert (E : h = onFinish).
  { destruct Hh as [<- | Hh]; [reflexivity|].
    destruct (canGoForward i (Children_count (children props)));
      cbn in Hh; intuition congruence. }
  subst h; split; [reflexivity|].
  intros w; rewrite call_onFinish; cbn; auto.
Qed.

(** C8. For N > 0 the render of currentPage = i contains the back control
    exactly when canGoBack holds, the forward control exactly when
    canGoForward holds and a finish control exactly when canGoForward does
    not hold; a guide of one page, as mounted, shows neither back nor forward
    control and shows the finish control. *)
Theorem controls_follow_availability props i :
  Children_count (children props) > 0 ->
  shows is_back_control (Guide translate props i) = canGoBack i
  /\ shows is_forward_control (Guide translate props i) =
       canGoForward i (Children_count (children props))
  /\ shows is_finish_control (Guide translate props i) =
       negb (canGoForward i (Children_count (children props)))
  /\ (Children_count (children props) = 1 ->
      shows is_back_control (Guide translate props 0) = false
      /\ shows is_forward_control (Guide translate props 0) = false
      /\ shows is_finish_control (Guide translate props 0) = true).
Proof.
  intros Hpages.
  assert (G : forall k,
    shows is_back_control (Guide translate props k) = canGoBack k
    /\ shows is_forward_control (Guide translate props k) =
         canGoForward k (Children_count (children props))
    /\ shows is_finish_control (Guide translate props k) =
         negb (canGoForward k (Children_count (children props)))).
  { intros k; render_cases props k Hpages; auto. }
  destruct (G i) as (Hb & Hf & Hfin).
  split; [exact Hb|]; split; [exact Hf|]; split; [exact Hfin|].
  intros H1; destruct (G 0) as (Hb0 & Hf0 & Hfin0).
  rewrite Hb0, Hf0, Hfin0, H1; auto.
Qed.

(** C9, as amended. For N > 0 the inline finish control is rendered under
    the same condition as the footer one: once each when canGoForward does
    not hold (the last page), and not at all while canGoForward holds. *)
Theorem inline_finish_only_on_last_page props i :
  Children_count (children props) > 0 ->
  how_many is_inline_finish_control (Guide translate props i) =
    (if canGoForward i (Children_count (children props)) then 0 else 1)%nat
  /\ how_many is_footer_finish_control (Guide translate props i) =
    (if canGoForward i (Children_count (children props)) then 0 else 1)%nat
  /\ how_many is_finish_control (Guide translate props i) =
    (if canGoForward i (Children_count (children props)) then 0 else 2)%nat.
Proof. intros Hpages; render_cases props i Hpages; auto. Qed.

(** C10. When finishButtonText is falsy (the empty string among others),
    every finish control of the render is labelled with the localised
    "Finish"; when it is truthy, every finish control is labelled with it.
    On the last page of a guide there are two such controls. *)
Theorem finish_label_defaults_when_falsy props i :
  truthy (JSString "") = false
  /\ (truthy (finishButtonText props) = false ->
      Forall (fun l => l = JSString (translate "Finish"))
             (finish_labels (Guide translate props i)))
  /\ (truthy (finishButtonText props) = true ->
      Forall (fun l => l = finishButtonText props)
             (finish_labels (Guide translate props i)))
  /\ (Children_count (children props) > 0 ->
      canGoForward i (Children_count (children props)) = false ->
      List.length (finish_labels (Guide translate props i)) = 2%nat).
Proof.
  split; [reflexivity|].
  destruct (Z.eq_dec (Children_count (children props)) 0) as [E0 | N0].
  - assert (E : finish_labels (Guide translate props i) = [])
      by (unfold finish_labels, Guide; rewrite E0; reflexivity).
    rewrite E; split; [|split]; [constructor | constructor | lia].
  - assert (Hpages : Children_count (children props) > 0)
      by (unfold Children_count in *; lia).
    rewrite (finish_labels_Guide props i Hpages); unfold js_or.
    split; [|split].
    + intros ->; destruct (canGoForward _ _); repeat constructor.
    + intros ->; destruct (canGoForward _ _); repeat constructor.
    + intros _ ->; reflexivity.
Qed.

End Properties.

(** ** The properties on the concrete guides *)

(** Six arrow keys on the three-page guide, two of them at an end. *)
Lemma currentPage_stays_valid_witness :
  Forall (fun w' => valid_index 3 (state_currentPage w'))
         (trace count_call three_pages (mount 0%nat)
            [GoBack; GoForward; GoForward; GoForward; GoForward; GoBack]).
Proof.
  apply (currentPage_stays_valid count_call three_pages 0%nat).
  - reflexivity.
  - repeat constructor; (left; reflexivity) || (right; reflexivity).
Defined.

(** The setter given to the page indicator, called with 5 on the first of
    three pages, stores 5. *)
Lemma jumpTo_out_of_range_not_ignored :
  ~ valid_index (Children_count (children three_pages)) 5
  /\ jump_handlers (Guide english three_pages 0) = [setCurrentPage]
  /\ state_currentPage
       (step count_call three_pages (mount 0%nat) (JumpTo 5)) = 5
  /\ step count_call three_pages (mount 0%nat) (JumpTo 5) <> mount 0%nat.
Proof.
  split; [unfold valid_index; cbn; lia|].
  split; [reflexivity|].
  split; [reflexivity|].
  cbn; discriminate.
Qed.

(** Left on the first page and right on the third of three pages. *)
Lemma navigation_outside_precondition_ignored_witness :
  step count_call three_pages (mount 0%nat) GoBack = mount 0%nat
  /\ step count_call three_pages (mkWorld 2 0%nat) GoForward =
       mkWorld 2 0%nat.
Proof.
  split.
  - apply (proj1 (navigation_outside_precondition_ignored
                    count_call three_pages (mount 0%nat))).
    reflexivity.
  - apply (proj2 (navigation_outside_precondition_ignored
                    count_call three_pages (mkWorld 2 0%nat))).
    reflexivity.
Defined.

(** The middle page of three: both directions are available. *)
Lemma navigation_availability_witness :
  (3 > 0 /\ valid_index 3 1)
  /\ (canGoBack 1 = true <-> 1 > 0)
  /\ (canGoBack 1 = false <-> 1 = 0)
  /\ (canGoForward 1 3 = true <-> 1 < 3 - 1)
  /\ (canGoForward 1 3 = false <-> 1 = 3 - 1).
Proof.
  split; [unfold valid_index; lia|].
  apply (navigation_availability 3 1); unfold valid_index; lia.
Defined.

(** The guide without children. *)
Lemma empty_guide_renders_nothing_witness :
  Children_count (children no_pages) = 0
  /\ Guide english no_pages 0 = None
  /\ rendered (Guide english no_pages 0) = [].
Proof.
  split; [reflexivity|].
  apply (empty_guide_renders_nothing english no_pages 0); reflexivity.
Defined.

(** Right, then left, from the first of three pages. *)
Lemma goForward_then_goBack_witness :
  state_currentPage (step count_call three_pages (mount 0%nat) GoForward) = 1
  /\ step count_call three_pages
       (step count_call three_pages (mount 0%nat) GoForward) GoBack =
     mount 0%nat.
Proof.
  apply (goForward_then_goBack count_call three_pages (mount 0%nat)).
  cbn; lia.
Defined.

(** Finishing from the first of three pages adds one to the host's count. *)
Lemma finish_calls_onFinish_once_witness :
  In onFinish (finish_handlers (Guide english three_pages 0))
  /\ forall h,
       In h (finish_handlers (Guide english three_pages 0)) ->
       onFinish_calls h = 1%nat
       /\ forall w,
            state_currentPage (call count_call h w) = state_currentPage w
            /\ host (call count_call h w) = S (host w).
Proof.
  apply (finish_calls_onFinish_once english count_call three_pages 0).
  reflexivity.
Defined.

(** The guide of a single page, as mounted. *)
Lemma controls_follow_availability_witness :
  shows is_back_control (Guide english one_page 0) = false
  /\ shows is_forward_control (Guide english one_page 0) = false
  /\ shows is_finish_control (Guide english one_page 0) = true.
Proof.
  apply (controls_follow_availability english one_page 0);
    reflexivity.
Defined.

(** The first of three pages is not the last one, and its render has no
    finish control, inline or other. *)
Lemma inline_finish_absent_before_last_page :
  valid_index (Children_count (children three_pages)) 0
  /\ canGoForward 0 (Children_count (children three_pages)) = true
  /\ shows is_inline_finish_control (Guide english three_pages 0) = false
  /\ shows is_finish_control (Guide english three_pages 0) = false.
Proof.
  split; [unfold valid_index; cbn; lia|].
  repeat split.
Qed.

(** The last of three pages has one inline and one footer finish control. *)
Lemma inline_finish_only_on_last_page_witness :
  how_many is_inline_finish_control (Guide english three_pages 2) = 1%nat
  /\ how_many is_footer_finish_control (Guide english three_pages 2) = 1%nat
  /\ how_many is_finish_control (Guide english three_pages 2) = 2%nat.
Proof.
  apply (inline_finish_only_on_last_page english three_pages 2).
  reflexivity.
Defined.

(** The single-page guide was given the empty string as finish text. *)
Lemma finish_label_defaults_when_falsy_witness :
  Forall (fun l => l = JSString "Finish")
         (finish_labels (Guide english one_page 0))
  /\ List.length (finish_labels (Guide english one_page 0)) = 2%nat.
Proof.
  pose proof (finish_label_defaults_when_falsy english one_page 0)
    as (_ & Hfalsy & _ & Htwo).
  split.
  - apply Hfalsy; reflexivity.
  - apply Htwo; reflexivity.
Defined.

(** * Further properties of the guide *)

Section GuideRuns.

Context {Page Host : Type}.
Variable translate : string -> string.
Variable onFinish_callback : Host -> Host.

Implicit Type props : Props Page.
Implicit Type w : World Host.
Implicit Type a : Action.
Implicit Type actions : list Action.
Implicit Types i j n : Z.

Lemma run_cons props w a actions :
  run onFinish_callback props w (a :: actions) =
  run onFinish_callback props (step onFinish_callback props w a) actions.
Proof. reflexivity. Qed.

(** The page an action leads to depends on the current page alone, and the
    host changes under [Finish] alone. *)
Lemma step_components props w a :
  state_currentPage (step onFinish_callback props w a) =
    state_currentPage
      (step (fun u : unit => u) props (mkWorld (state_currentPage w) tt) a)
  /\ host (step onFinish_callback props w a) =
       (if is_Finish a then onFinish_callback (host w) else host w).
Proof.
  destruct a.
  - rewrite !step_GoBack; cbn.
    destruct (canGoBack (state_currentPage w)); auto.
  - rewrite !step_GoForward; cbn.
    destruct (canGoForward (state_currentPage w) _); auto.
  - cbn; auto.
  - cbn; auto.
Qed.



Lemma forwards_reach_last props (d : nat) :
  forall w,
    state_currentPage w + Z.of_nat d = Children_count (children props) - 1 ->
    run onFinish_callback props w (repeat GoForward d) =
    mkWorld (Children_count (children props) - 1) (host w).
Proof.
  induction d as [|d IH]; intros w Hd.
  - cbn [repeat]; unfold run; cbn [fold_left].
    rewrite <- (world_eta w) at 1; f_equal; lia.
  - cbn [repeat]; rewrite run_cons, step_GoForward.
    replace (canGoForward (state_currentPage w)
               (Children_count (children props))) with true
      by (symmetry; apply canGoForward_spec; lia).
    rewrite IH; cbn [state_currentPage host]; [reflexivity | lia].
Qed.

(** X3. From every page of a guide that has pages, going forward
    N - 1 - currentPage times ends on the last page, whose render shows the
    finish control; nothing on the way calls onFinish. *)
Theorem finish_control_reachable props w :
  Children_count (children props) > 0 ->
  valid_index (Children_count (children props)) (state_currentPage w) ->
  let forwards :=
    repeat GoForward
      (Z.to_nat (Children_count (children props) - 1 - state_currentPage w)) in
  let w' := run onFinish_callback props w forwards in
  state_currentPage w' = Children_count (children props) - 1
  /\ host w' = host w
  /\ shows is_finish_control (Guide translate props (state_currentPage w'))
     = true.
Proof.
  intros Hpages Hi forwards w'; unfold valid_index in Hi.
  assert (E : w' = mkWorld (Children_count (children props) - 1) (host w)).
  { unfold w', forwards; apply forwards_reach_last; lia. }
  rewrite E; cbn [state_currentPage host].
  split; [reflexivity|]; split; [reflexivity|].
  unfold shows, rendered, Guide.
  replace (Children_count (children props) =? 0) with false
    by (symmetry; apply Z.eqb_neq; lia).
  replace (canGoForward (Children_count (children props) - 1)
             (Children_count (children props))) with false
    by (symmetry; apply canGoForward_false; lia).
  destruct (canGoBack (Children_count (children props) - 1)); reflexivity.
Qed.

(** X4. When goBack is allowed and goForward is allowed after it
    (0 < currentPage <= N - 1), goBack moves to currentPage - 1 and
    goForward right after it restores the state before the goBack. *)
Theorem goBack_then_goForward props w :
  0 < state_currentPage w <= Children_count (children props) - 1 ->
  state_currentPage (step onFinish_callback props w GoBack) =
    state_currentPage w - 1
  /\ step onFinish_callback props
       (step onFinish_callback props w GoBack) GoForward = w.
Proof.
  intros Hi.
  assert (B : canGoBack (state_currentPage w) = true)
    by (apply canGoBack_spec; lia).
  assert (F : canGoForward (state_currentPage w - 1)
                (Children_count (children props)) = true)
    by (apply canGoForward_spec; lia).
  rewrite step_GoBack, B; split; [reflexivity|].
  rewrite step_GoForward; cbn [state_currentPage host]; rewrite F.
  replace (state_currentPage w - 1 + 1) with (state_currentPage w) by lia.
  apply world_eta.
Qed.

Lemma step_in_range_valid props w a :
  in_range_action (Children_count (children props)) a ->
  valid_index (Children_count (children props)) (state_currentPage w) ->
  valid_index (Children_count (children props))
              (state_currentPage (step onFinish_callback props w a)).
Proof.
  destruct a; cbn [in_range_action]; intros Ha Hw.
  - apply step_navigation_valid; [left; reflexivity | exact Hw].
  - apply step_navigation_valid; [right; reflexivity | exact Hw].
  - exact Ha.
  - exact Hw.
Qed.

(** X5. With at least one page, every sequence of goBack, goForward,
    finish and jumpTo actions whose jumpTo indices are within [0, N - 1]
    keeps currentPage within [0, N - 1] after each action, starting from
    the mounted guide. *)
Theorem currentPage_valid_under_all_actions props (h : Host) actions :
  Children_count (children props) > 0 ->
  Forall (in_range_action (Children_count (children props))) actions ->
  Forall (fun w' => valid_index (Children_count (children props))
                                (state_currentPage w'))
         (trace onFinish_callback props (mount h) actions).
Proof.
  intros Hpages Hall.
  assert (H0 : valid_index (Children_count (children props))
                 (state_currentPage (mount h)))
    by (unfold valid_index, mount; cbn; lia).
  revert H0; generalize (mount h).
  induction Hall as [|a rest Ha _ IH]; intros w Hw; cbn [trace].
  - constructor.
  - pose proof (step_in_range_valid props w a Ha Hw) as Hstep.
    constructor; [exact Hstep | apply IH; exact Hstep].
Qed.

(** X6. Over any sequence of actions the supplied callback is applied to
    the host once for each finish activation in the sequence and never
    otherwise: navigation and jumps do not call it. *)
Theorem onFinish_called_once_per_finish props w actions :
  host (run onFinish_callback props w actions) =
  Nat.iter (finish_count actions) onFinish_callback (host w).
Proof.
  revert w; induction actions as [|a rest IH]; intros w.
  - reflexivity.
  - rewrite run_cons, IH.
    destruct (step_components props w a) as [_ ->].
    unfold finish_count; cbn [filter].
    destruct (is_Finish a); cbn [List.length]; [|reflexivity].
    symmetry; apply Nat.iter_succ_r.
Qed.

Lemma run_currentPage_host_independent props actions :
  forall w1 w2,
    state_currentPage w1 = state_currentPage w2 ->
    state_currentPage (run onFinish_callback props w1 actions) =
    state_currentPage (run onFinish_callback props w2 actions).
Proof.
  induction actions as [|a rest IH]; intros w1 w2 E; [exact E|].
  rewrite !run_cons; apply IH.
  destruct (step_components props w1 a) as [-> _].
  destruct (step_components props w2 a) as [-> _].
  rewrite E; reflexivity.
Qed.

(** X7. Finish activations have no influence on where a sequence of actions
    leaves currentPage: dropping them from the sequence gives the same
    page. *)
Theorem finish_does_not_steer props w actions :
  state_currentPage (run onFinish_callback props w actions) =
  state_currentPage (run onFinish_callback props w (without_finish actions)).
Proof.
  revert w; induction actions as [|a rest IH]; intros w; [reflexivity|].
  change (without_finish (a :: rest))
    with (if negb (is_Finish a) then a :: without_finish rest
          else without_finish rest).
  destruct a; cbn [is_Finish negb]; rewrite ?run_cons; try apply IH.
  rewrite <- (IH w).
  apply run_currentPage_host_independent; reflexivity.
Qed.


(** X9. A handler built by one render stores a page computed from that
    render's currentPage, so running the same navigation or jump handler
    twice before the next render has the effect of running it once. *)
Theorem stale_handler_runs_once props i a w :
  a <> Finish ->
  call onFinish_callback (handler_of props i a ++ handler_of props i a) w =
  call onFinish_callback (handler_of props i a) w.
Proof.
  intros Ha; destruct a; cbn [handler_of]; unfold goBack, goForward.
  - destruct (canGoBack i); reflexivity.
  - destruct (canGoForward i _); reflexivity.
  - reflexivity.
  - contradiction.
Qed.

End GuideRuns.

(** From the first of three pages, two steps forward reach the finish
    control. *)
Lemma finish_control_reachable_witness :
  state_currentPage
    (run count_call three_pages (mount 0%nat) [GoForward; GoForward]) = 2
  /\ host (run count_call three_pages (mount 0%nat) [GoForward; GoForward])
     = 0%nat
  /\ shows is_finish_control
       (Guide english three_pages
          (state_currentPage
             (run count_call three_pages (mount 0%nat)
                [GoForward; GoForward]))) = true.
Proof.
  apply (finish_control_reachable english count_call three_pages
           (mount 0%nat)).
  - reflexivity.
  - unfold valid_index; cbn; lia.
Defined.

(** Left, then right, from the last of three pages. *)
Lemma goBack_then_goForward_witness :
  state_currentPage (step count_call three_pages (mkWorld 2 0%nat) GoBack) = 1
  /\ step count_call three_pages
       (step count_call three_pages (mkWorld 2 0%nat) GoBack) GoForward =
     mkWorld 2 0%nat.
Proof.
  apply (goBack_then_goForward count_call three_pages (mkWorld 2 0%nat)).
  cbn; lia.
Defined.

(** Jumps to the last and the first marker mixed with arrows and a finish. *)
Lemma currentPage_valid_under_all_actions_witness :
  Forall (fun w' => valid_index 3 (state_currentPage w'))
         (trace count_call three_pages (mount 0%nat)
            [JumpTo 2; GoForward; Finish; JumpTo 0; GoBack; GoForward]).
Proof.
  apply (currentPage_valid_under_all_actions count_call three_pages 0%nat).
  - reflexivity.
  - repeat constructor; unfold valid_index; cbn; lia.
Defined.


(** Two presses of the right arrow against the render of the first page. *)
Lemma stale_handler_runs_once_witness :
  call count_call
    (handler_of three_pages 0 GoForward ++ handler_of three_pages 0 GoForward)
    (mount 0%nat) = mkWorld 1 0%nat.
Proof.
  rewrite (stale_handler_runs_once count_call three_pages 0 GoForward
             (mount 0%nat)).
  - reflexivity.
  - discriminate.
Defined.

(** * Properties of the image block editor *)

Section ImageEditProperties.

Variable isBlobURL : JSValue -> bool.
Variable K : ImageEdit.Constants.
Variable translate : string -> string.

Implicit Types id url align value newURL v : JSValue.
Implicit Type attributes : Attributes.
Implicit Type image : ImageEdit.ImageProp.
Implicit Type patch : Obj.

Lemma js_strict_eq_eq (a b : JSValue) : js_strict_eq a b = true <-> a = b.
Proof.
  destruct a, b; cbn; split; intros H;
    try reflexivity; try discriminate; try congruence.
  - f_equal; apply Bool.eqb_prop; exact H.
  - injection H as ->; apply Bool.eqb_reflx.
  - f_equal; apply Z.eqb_eq; exact H.
  - injection H as ->; apply Z.eqb_refl.
  - f_equal; apply String.eqb_eq; exact H.
  - injection H as ->; apply String.eqb_refl.
  - f_equal; apply Nat.eqb_eq; exact H.
  - injection H as ->; apply Nat.eqb_refl.
Qed.

Lemma js_strict_eq_refl (a : JSValue) : js_strict_eq a a = true.
Proof. apply js_strict_eq_eq; reflexivity. Qed.

Lemma js_strict_eq_neq (a b : JSValue) : js_strict_eq a b = false <-> a <> b.
Proof.
  rewrite <- js_strict_eq_eq; destruct (js_strict_eq a b); split;
    congruence.
Qed.

(** X10. An image is never both temporary and external; without an id and
    with a url it is one of the two (temporary when the url is a blob url,
    external otherwise); with an id it is neither. *)
Theorem image_temporary_xor_external id url :
  (ImageEdit.isTemporaryImage isBlobURL id url = true ->
   truthy (ImageEdit.isExternalImage isBlobURL id url) = false)
  /\ (truthy id = false -> truthy url = true ->
      ImageEdit.isTemporaryImage isBlobURL id url = isBlobURL url
      /\ truthy (ImageEdit.isExternalImage isBlobURL id url) =
           negb (isBlobURL url))
  /\ (truthy id = true ->
      ImageEdit.isTemporaryImage isBlobURL id url = false
      /\ truthy (ImageEdit.isExternalImage isBlobURL id url) = false).
Proof.
  unfold ImageEdit.isTemporaryImage, ImageEdit.isExternalImage, js_and.
  destruct (truthy id), (isBlobURL url), (truthy url) eqn:Eu; cbn;
    rewrite ?Eu; repeat split; intros; congruence.
Qed.

(** X11. The resizable box always has a left or a right handle, and it has
    both exactly when the image is centred. *)
Theorem resize_handles_never_none align isRTL :
  let (showRightHandle, showLeftHandle) :=
    ImageEdit.resize_handles align isRTL in
  showRightHandle || showLeftHandle = true
  /\ (showRightHandle && showLeftHandle = true <->
      align = JSString "center").
Proof.
  unfold ImageEdit.resize_handles.
  destruct (js_strict_eq align (JSString "center")) eqn:Ec.
  - apply js_strict_eq_eq in Ec; cbn; intuition.
  - apply js_strict_eq_neq in Ec.
    destruct (truthy isRTL), (js_strict_eq align (JSString "left")),
      (js_strict_eq align (JSString "right")); cbn; intuition discriminate.
Qed.

(** X12. Right-to-left layout mirrors the handles: the handles of an
    alignment in a right-to-left editor are those of the mirrored alignment
    in a left-to-right editor, with left and right exchanged. *)
Theorem resize_handles_mirrored align rtl ltr :
  truthy rtl = true -> truthy ltr = false ->
  ImageEdit.resize_handles align rtl =
  (snd (ImageEdit.resize_handles (ImageEdit.mirror_align align) ltr),
   fst (ImageEdit.resize_handles (ImageEdit.mirror_align align) ltr)).
Proof.
  intros Hr Hl; unfold ImageEdit.resize_handles, ImageEdit.mirror_align.
  rewrite Hr, Hl.
  destruct (js_strict_eq align (JSString "left")) eqn:E1.
  { apply js_strict_eq_eq in E1; subst align; reflexivity. }
  destruct (js_strict_eq align (JSString "right")) eqn:E2.
  { apply js_strict_eq_eq in E2; subst align; reflexivity. }
  rewrite E2.
  destruct (js_strict_eq align (JSString "center")); reflexivity.
Qed.

(** ** The link popover *)

(** X13. A closed popover shows neither the link editor nor the link
    viewer; an open one shows exactly one of them: the editor when there is
    no url or the link is being edited, the viewer otherwise. *)
Theorem popover_editor_xor_viewer {Options : Type}
  (props : ImageEdit.UIProps Options) (st : ImageEdit.UIState) :
  let kids :=
    ImageEdit.popover_children (ImageEdit.ImageURLInputUI K translate props st)
  in
  (ImageEdit.isOpen st = false -> kids = [])
  /\ (ImageEdit.isOpen st = true ->
      existsb ImageEdit.is_LinkEditor kids =
        negb (truthy (ImageEdit.ui_url props)) || ImageEdit.isEditingLink st
      /\ existsb ImageEdit.is_LinkViewer kids =
           negb (existsb ImageEdit.is_LinkEditor kids)
      /\ (List.length (filter ImageEdit.is_LinkEditor kids)
          + List.length (filter ImageEdit.is_LinkViewer kids) = 1)%nat).
Proof.
  unfold ImageEdit.ImageURLInputUI, ImageEdit.popover_children.
  destruct (ImageEdit.isOpen st); cbn -[ImageEdit.linkEditorValue].
  - split; [discriminate|]; intros _.
    destruct (truthy (ImageEdit.ui_url props)),
      (ImageEdit.isEditingLink st); cbn; auto.
  - split; [reflexivity | discriminate].
Qed.

Lemma ui_dispatch_closed_is_fresh {Options : Type}
  (props : ImageEdit.UIProps Options) (w : ImageEdit.UIWorld)
  (ev : ImageEdit.UIEvent) :
  (ImageEdit.isOpen (ImageEdit.ui_state w) = false ->
   ImageEdit.ui_state w = ImageEdit.ui_initial) ->
  ImageEdit.isOpen
    (ImageEdit.ui_state (ImageEdit.ui_dispatch K translate props w ev))
    = false ->
  ImageEdit.ui_state (ImageEdit.ui_dispatch K translate props w ev) =
  ImageEdit.ui_initial.
Proof.
  intros Hinv; unfold ImageEdit.ui_dispatch, ImageEdit.handlers_for,
    ImageEdit.popover_children, ImageEdit.ImageURLInputUI.
  destruct w as [[o e u] log n]; cbn [ImageEdit.ui_state] in *.
  cbn [ImageEdit.isOpen ImageEdit.isEditingLink ImageEdit.urlInput] in *.
  destruct o.
  - clear Hinv.
    destruct (truthy (ImageEdit.ui_url props)), e,
      (truthy (ImageEdit.linkEditorValue u (ImageEdit.ui_url props)));
      destruct ev as [| [|] | | v | | | | idx];
      cbn -[ImageEdit.startEditLink nth_error];
      try (intros H; first [discriminate H | reflexivity]);
      try (unfold ImageEdit.startEditLink; destruct (_ || _); cbn;
           intros H; first [discriminate H | reflexivity]);
      try (unfold ImageEdit.onSubmitLinkChange; destruct (truthy u); cbn;
           intros H; first [discriminate H | reflexivity]);
      rewrite nth_error_map;
      destruct (nth_error (ImageEdit.ui_mediaLinks props) idx); cbn;
      intros H; first [discriminate H | reflexivity].
  - specialize (Hinv eq_refl); injection Hinv as -> ->.
    destruct ev; cbn; intros H; first [discriminate H | reflexivity].
Qed.

(** X14. Whatever the user does to the popover, from its first render on,
    a closed popover holds no trace of earlier use: whenever isOpen is
    false, isEditingLink is false and the typed url is null, so the popover
    reopens as new. *)
Theorem popover_closed_is_fresh {Options : Type}
  (steps : list (ImageEdit.UIProps Options * ImageEdit.UIEvent)) :
  let w :=
    ImageEdit.ui_run K translate steps
      (ImageEdit.mkUIWorld ImageEdit.ui_initial [] 0) in
  ImageEdit.isOpen (ImageEdit.ui_state w) = false ->
  ImageEdit.ui_state w = ImageEdit.ui_initial.
Proof.
  unfold ImageEdit.ui_run.
  assert (G : forall w0,
    (ImageEdit.isOpen (ImageEdit.ui_state w0) = false ->
     ImageEdit.ui_state w0 = ImageEdit.ui_initial) ->
    let w :=
      fold_left (fun w step =>
                   ImageEdit.ui_dispatch K translate (fst step) w (snd step))
                steps w0 in
    ImageEdit.isOpen (ImageEdit.ui_state w) = false ->
    ImageEdit.ui_state w = ImageEdit.ui_initial).
  { induction steps as [|[props ev] rest IH]; intros w0 H0; cbn [fold_left].
    - exact H0.
    - apply IH; cbn [fst snd].
      apply ui_dispatch_closed_is_fresh; exact H0. }
  apply G; reflexivity.
Qed.

(** Closing the popover, by its close request or by a click outside
    that is not on the autocomplete suggestions, puts the three hooks back
    to their initial values from any state and does not call onChangeUrl; a
    click on the suggestions changes nothing; removing the link resets the
    hooks as well and calls onChangeUrl once, with the empty string. *)
Theorem popover_close_resets (w : ImageEdit.UIWorld) :
  (ImageEdit.ui_state (ImageEdit.ui_call ImageEdit.closeLinkUI w) =
     ImageEdit.ui_initial
   /\ ImageEdit.url_changes (ImageEdit.ui_call ImageEdit.closeLinkUI w) =
        ImageEdit.url_changes w)
  /\ (ImageEdit.ui_state
        (ImageEdit.ui_call (ImageEdit.onClickOutside false) w) =
      ImageEdit.ui_initial
      /\ ImageEdit.url_changes
           (ImageEdit.ui_call (ImageEdit.onClickOutside false) w) =
         ImageEdit.url_changes w)
  /\ ImageEdit.ui_call (ImageEdit.onClickOutside true) w = w
  /\ (ImageEdit.ui_state (ImageEdit.ui_call ImageEdit.onLinkRemove w) =
      ImageEdit.ui_initial
      /\ ImageEdit.url_changes (ImageEdit.ui_call ImageEdit.onLinkRemove w) =
         ImageEdit.url_changes w ++ [JSString ""]).
Proof. repeat split. Qed.

(** Submitting the link editor calls onChangeUrl with the typed value
    when that is truthy and does not call it at all when the field is empty
    or untouched; in both cases it ends the editing, forgets the typed
    value, keeps the popover as open as it was and prevents the default
    action of the event once. *)
Theorem popover_submit (w : ImageEdit.UIWorld) :
  let st := ImageEdit.ui_state w in
  let w' :=
    ImageEdit.ui_call (ImageEdit.onSubmitLinkChange (ImageEdit.urlInput st)) w
  in
  ImageEdit.url_changes w' =
    ImageEdit.url_changes w
    ++ (if truthy (ImageEdit.urlInput st) then [ImageEdit.urlInput st]
        else [])
  /\ ImageEdit.ui_state w' =
       ImageEdit.mkUIState (ImageEdit.isOpen st) false JSNull
  /\ ImageEdit.prevented w' = S (ImageEdit.prevented w).
Proof.
  unfold ImageEdit.onSubmitLinkChange.
  destruct (truthy (ImageEdit.urlInput (ImageEdit.ui_state w))); cbn.
  - auto.
  - rewrite app_nil_r; auto.
Qed.

(** X15. Starting to edit a link that points to the media file or to the
    attachment page blanks the field: the next render shows the link editor
    with the empty string. For any other link destination the editor shows
    what was typed before, or the current url when nothing was typed. *)
Theorem startEditLink_blanks_media_links {Options : Type}
  (props : ImageEdit.UIProps Options) (w : ImageEdit.UIWorld) :
  ImageEdit.isOpen (ImageEdit.ui_state w) = true ->
  let is_media :=
    js_strict_eq (ImageEdit.ui_linkDestination props)
      (JSString (ImageEdit.LINK_DESTINATION_MEDIA K))
    || js_strict_eq (ImageEdit.ui_linkDestination props)
         (JSString (ImageEdit.LINK_DESTINATION_ATTACHMENT K)) in
  let w' :=
    ImageEdit.ui_call
      (ImageEdit.startEditLink K (ImageEdit.ui_linkDestination props)) w in
  map (fun e => match e with
                | ImageEdit.LinkEditor v _ _ => Some v
                | _ => None
                end)
      (ImageEdit.popover_children
         (ImageEdit.ImageURLInputUI K translate props (ImageEdit.ui_state w')))
  = [ Some (if is_media then JSString ""
            else ImageEdit.linkEditorValue
                   (ImageEdit.urlInput (ImageEdit.ui_state w))
                   (ImageEdit.ui_url props)) ].
Proof.
  intros Hopen is_media w'; unfold w', is_media, ImageEdit.startEditLink.
  destruct (_ || _); cbn -[ImageEdit.linkEditorValue];
    rewrite Hopen; cbn -[ImageEdit.linkEditorValue];
    rewrite Bool.orb_true_r, Bool.andb_false_r; reflexivity.
Qed.

(** ** Attributes *)

Lemma setAttributes_all_one patch attributes :
  setAttributes_all [patch] attributes = setAttributes patch attributes.
Proof. reflexivity. Qed.

Lemma onSetHref_attributes attributes image value (k : string) :
  setAttributes_all (ImageEdit.onSetHref K translate attributes image value)
    attributes k =
  if String.eqb k "href" then value
  else if String.eqb k "linkDestination"
       then JSString
              (ImageEdit.linkDestinationInput K translate attributes image
                 value)
       else attributes k.
Proof.
  unfold ImageEdit.onSetHref.
  destruct (js_strict_eq (attributes "linkDestination") _) eqn:E;
    cbn [negb]; rewrite setAttributes_all_one; unfold setAttributes;
    cbn [obj_find].
  - destruct (String.eqb k "href"); [reflexivity|].
    destruct (String.eqb k "linkDestination") eqn:Ek; [|reflexivity].
    apply String.eqb_eq in Ek; subst k.
    apply js_strict_eq_eq; exact E.
  - destruct (String.eqb k "href"); [reflexivity|].
    destruct (String.eqb k "linkDestination"); reflexivity.
Qed.

Lemma linkDestinationInput_reads_url attributes1 attributes2 image value :
  attributes1 "url" = attributes2 "url" ->
  ImageEdit.linkDestinationInput K translate attributes1 image value =
  ImageEdit.linkDestinationInput K translate attributes2 image value.
Proof.
  intros E; unfold ImageEdit.linkDestinationInput,
    ImageEdit.getLinkDestinations; rewrite E; reflexivity.
Qed.

(** X16. After onSetHref( value ) the href attribute is the value and the
    linkDestination attribute is the destination worked out for it,
    whether or not the method wrote the destination; no other attribute
    changes, and setting the same value again changes nothing more. *)
Theorem onSetHref_keeps_destination_in_step attributes image value :
  let attributes' :=
    setAttributes_all
      (ImageEdit.onSetHref K translate attributes image value) attributes in
  attributes' "href" = value
  /\ attributes' "linkDestination" =
       JSString
         (ImageEdit.linkDestinationInput K translate attributes image value)
  /\ (forall k, k <> "href" -> k <> "linkDestination" ->
                attributes' k = attributes k)
  /\ (forall k,
        setAttributes_all
          (ImageEdit.onSetHref K translate attributes' image value)
          attributes' k = attributes' k).
Proof.
  intros attributes'.
  assert (Hk : forall k, attributes' k =
            if String.eqb k "href" then value
            else if String.eqb k "linkDestination"
                 then JSString
                        (ImageEdit.linkDestinationInput K translate
                           attributes image value)
                 else attributes k)
    by (intros k; apply onSetHref_attributes).
  split; [rewrite Hk; reflexivity|].
  split; [rewrite Hk; reflexivity|].
  split.
  - intros k H1 H2; rewrite Hk.
    apply String.eqb_neq in H1, H2; rewrite H1, H2; reflexivity.
  - intros k; rewrite onSetHref_attributes.
    rewrite (linkDestinationInput_reads_url attributes' attributes)
      by (rewrite Hk; reflexivity).
    rewrite (Hk k).
    destruct (String.eqb k "href"); [reflexivity|].
    destruct (String.eqb k "linkDestination"); reflexivity.
Qed.

(** X17. When the constant for no link differs from the other three, the
    destination onSetHref works out is that constant exactly when the value
    is falsy; a truthy value that is the url of the media file gives the
    media destination, also when the attachment page has the same url. *)
Theorem linkDestinationInput_none_iff_falsy attributes image value :
  ImageEdit.LINK_DESTINATION_NONE K <> ImageEdit.LINK_DESTINATION_MEDIA K ->
  ImageEdit.LINK_DESTINATION_NONE K <>
    ImageEdit.LINK_DESTINATION_ATTACHMENT K ->
  ImageEdit.LINK_DESTINATION_NONE K <> ImageEdit.LINK_DESTINATION_CUSTOM K ->
  (ImageEdit.linkDestinationInput K translate attributes image value =
     ImageEdit.LINK_DESTINATION_NONE K <-> truthy value = false)
  /\ (truthy value = true ->
      js_or (ImageEdit.image_source_url image) (attributes "url") = value ->
      ImageEdit.linkDestinationInput K translate attributes image value =
        ImageEdit.LINK_DESTINATION_MEDIA K).
Proof.
  intros Hm Ha Hc; unfold ImageEdit.linkDestinationInput,
    ImageEdit.getLinkDestinations; cbn [find ImageEdit.url].
  destruct (truthy value) eqn:Ev; cbn [negb].
  - split.
    + destruct (js_strict_eq (js_or _ _) value);
        [|destruct (js_strict_eq (ImageEdit.image_link image) value)];
        cbn [ImageEdit.linkDestination]; split; congruence.
    + intros _ ->; rewrite js_strict_eq_refl; reflexivity.
  - split; [split; reflexivity | discriminate].
Qed.

(** ** Selecting an image *)

Lemma obj_find_app (k : string) (b a : Obj) :
  obj_find k (b ++ a) =
  match obj_find k b with
  | Some v => Some v
  | None => obj_find k a
  end.
Proof.
  induction b as [|[k' v] b IH]; cbn; [reflexivity|].
  destruct (String.eqb k k'); [reflexivity | exact IH].
Qed.

Lemma obj_find_omit_same (k : string) (o : Obj) :
  obj_find k (obj_omit k o) = None.
Proof.
  induction o as [|[k' v] o IH]; cbn; [reflexivity|].
  destruct (String.eqb k k') eqn:E; cbn; [exact IH|].
  rewrite E; exact IH.
Qed.

Lemma obj_find_omit_other (k k' : string) (o : Obj) :
  k <> k' -> obj_find k (obj_omit k' o) = obj_find k o.
Proof.
  intros Hk; induction o as [|[k2 v] o IH]; cbn; [reflexivity|].
  destruct (String.eqb k' k2) eqn:E; cbn.
  - apply String.eqb_eq in E; subst k2.
    apply String.eqb_neq in Hk; rewrite Hk; exact IH.
  - destruct (String.eqb k k2); [reflexivity | exact IH].
Qed.

Lemma obj_find_picked (k k' : string) (field : option JSValue) :
  obj_find k (ImageEdit.picked k' field) =
  if String.eqb k k' then field else None.
Proof.
  destruct field; cbn; destruct (String.eqb k k'); reflexivity.
Qed.

(** The keys set when there is nothing to select. *)
Lemma onSelectImage_nothing attributes (media : option ImageEdit.Media)
  (k : string) :
  (forall m, media = Some m -> truthy (ImageEdit.media_url m) = false) ->
  setAttributes_all (ImageEdit.onSelectImage isBlobURL K attributes media)
    attributes k =
  if existsb (String.eqb k) ["url"; "alt"; "id"; "title"; "caption"]
  then JSUndefined else attributes k.
Proof.
  intros Hm; unfold ImageEdit.onSelectImage.
  assert (E : match media with
              | Some m => negb (truthy (ImageEdit.media_url m))
              | None => true
              end = true)
    by (destruct media as [m|]; [rewrite (Hm m eq_refl)|]; reflexivity).
  destruct media as [m|]; [rewrite E|];
    rewrite setAttributes_all_one; unfold setAttributes; cbn;
    destruct (String.eqb k "caption"), (String.eqb k "title"),
      (String.eqb k "id"), (String.eqb k "alt"), (String.eqb k "url");
    reflexivity.
Qed.

(** X18. Selecting nothing (no media, or a media without a url) clears the
    url, alt, id, title and caption attributes and leaves every other
    attribute, the dimensions and the link among them, as it was. *)
Theorem onSelectImage_without_media_clears attributes
  (media : option ImageEdit.Media) :
  (forall m, media = Some m -> truthy (ImageEdit.media_url m) = false) ->
  let attributes' :=
    setAttributes_all (ImageEdit.onSelectImage isBlobURL K attributes media)
      attributes in
  Forall (fun k => attributes' k = JSUndefined)
         ["url"; "alt"; "id"; "title"; "caption"]
  /\ (forall k, ~ In k ["url"; "alt"; "id"; "title"; "caption"] ->
                attributes' k = attributes k).
Proof.
  intros Hm attributes'; split.
  - repeat constructor; unfold attributes';
      rewrite (onSelectImage_nothing _ _ _ Hm); reflexivity.
  - intros k Hk; unfold attributes'; rewrite (onSelectImage_nothing _ _ _ Hm).
    destruct (existsb (String.eqb k) _) eqn:E; [|reflexivity].
    apply existsb_exists in E; destruct E as (k' & Hin & Ek).
    apply String.eqb_eq in Ek; subst k'; contradiction.
Qed.

(** The object [onSelectImage] hands over for a media that has a url. *)
Lemma onSelectImage_patch attributes (m : ImageEdit.Media) :
  truthy (ImageEdit.media_url m) = true ->
  exists mediaAttributes,
    ImageEdit.onSelectImage isBlobURL K attributes (Some m) =
      [ obj_spread mediaAttributes
          (if negb (truthy (ImageEdit.prop (ImageEdit.media_id m)))
              || negb (js_strict_eq (ImageEdit.prop (ImageEdit.media_id m))
                         (attributes "id"))
           then [ ("sizeSlug", JSString (ImageEdit.DEFAULT_SIZE_SLUG K));
                  ("height", JSUndefined); ("width", JSUndefined) ]
           else [ ("url", attributes "url") ]) ]
    /\ (forall k, k <> "href" -> k <> "alt" -> k <> "caption" ->
          obj_find k mediaAttributes =
          obj_find k (ImageEdit.pickRelevantMediaFiles m))
    /\ (ImageEdit.isTemporaryImage isBlobURL (attributes "id")
          (attributes "url") = true ->
        (truthy (attributes "alt") = true ->
         obj_find "alt" mediaAttributes = None)
        /\ (truthy (attributes "caption") = true ->
            obj_find "caption" mediaAttributes = None)).
Proof.
  intros Hu; unfold ImageEdit.onSelectImage; rewrite Hu; cbn [negb].
  eexists; split; [reflexivity|].
  split.
  - intros k H1 H2 H3.
    apply String.eqb_neq in H1.
    destruct (js_strict_eq _ (JSString (ImageEdit.LINK_DESTINATION_MEDIA K)));
      destruct (js_strict_eq _
                  (JSString (ImageEdit.LINK_DESTINATION_ATTACHMENT K)));
      unfold obj_set; cbn [obj_find]; rewrite ?H1;
      destruct (ImageEdit.isTemporaryImage _ _ _);
      destruct (truthy (attributes "alt"));
      destruct (truthy (attributes "caption"));
      rewrite ?obj_find_omit_other by assumption; reflexivity.
  - intros Ht; rewrite Ht; split; intros Ha; rewrite Ha.
    + destruct (js_strict_eq _
                  (JSString (ImageEdit.LINK_DESTINATION_MEDIA K)));
        destruct (js_strict_eq _
                    (JSString (ImageEdit.LINK_DESTINATION_ATTACHMENT K)));
        unfold obj_set; cbn [obj_find String.eqb Ascii.eqb Bool.eqb];
        destruct (truthy (attributes "caption"));
        rewrite ?obj_find_omit_other by discriminate;
        apply obj_find_omit_same.
    + destruct (js_strict_eq _
                  (JSString (ImageEdit.LINK_DESTINATION_MEDIA K)));
        destruct (js_strict_eq _
                    (JSString (ImageEdit.LINK_DESTINATION_ATTACHMENT K)));
        unfold obj_set; cbn [obj_find String.eqb Ascii.eqb Bool.eqb];
        apply obj_find_omit_same.
Qed.

(** X19. Selecting a media that has a url: when it is the image the block
    already shows (its id is truthy and is the id attribute), the url
    attribute and the width, height and sizeSlug attributes stay as they
    are; otherwise width and height are cleared, sizeSlug becomes the
    default slug and the url becomes the url of the large size, or the
    media's own url when it has no large size. *)
Theorem onSelectImage_same_or_other_image attributes (m : ImageEdit.Media) :
  truthy (ImageEdit.media_url m) = true ->
  let attributes' :=
    setAttributes_all
      (ImageEdit.onSelectImage isBlobURL K attributes (Some m)) attributes in
  let same :=
    truthy (ImageEdit.prop (ImageEdit.media_id m))
    && js_strict_eq (ImageEdit.prop (ImageEdit.media_id m))
         (attributes "id") in
  (same = true ->
   Forall (fun k => attributes' k = attributes k)
          ["url"; "width"; "height"; "sizeSlug"])
  /\ (same = false ->
      attributes' "width" = JSUndefined
      /\ attributes' "height" = JSUndefined
      /\ attributes' "sizeSlug" = JSString (ImageEdit.DEFAULT_SIZE_SLUG K)
      /\ attributes' "url" =
           js_or (js_or (ImageEdit.media_sizes_large_url m)
                        (ImageEdit.media_details_sizes_large_source_url m))
                 (ImageEdit.media_url m)).
Proof.
  intros Hu attributes' same.
  destruct (onSelectImage_patch attributes m Hu) as (ma & Hp & Hfind & _).
  assert (Hurl : obj_find "url" ma =
            Some (js_or (js_or (ImageEdit.media_sizes_large_url m)
                     (ImageEdit.media_details_sizes_large_source_url m))
                     (ImageEdit.media_url m)))
    by (rewrite Hfind by discriminate; reflexivity).
  assert (Hpick : forall k, In k ["width"; "height"; "sizeSlug"] ->
            obj_find k ma = None).
  { intros k Hk.
    assert (Hnone : obj_find k (ImageEdit.pickRelevantMediaFiles m) = None).
    { unfold ImageEdit.pickRelevantMediaFiles, obj_set.
      cbn in Hk; destruct Hk as [<- | [<- | [<- | []]]];
        cbn [obj_find String.eqb Ascii.eqb Bool.eqb];
        rewrite !obj_find_app, !obj_find_picked; reflexivity. }
    rewrite <- Hnone; cbn in Hk.
    destruct Hk as [<- | [<- | [<- | []]]]; apply Hfind; discriminate. }
  unfold attributes'; rewrite Hp, setAttributes_all_one.
  unfold setAttributes, obj_spread; unfold same.
  destruct (truthy (ImageEdit.prop (ImageEdit.media_id m)));
    destruct (js_strict_eq (ImageEdit.prop (ImageEdit.media_id m))
                (attributes "id"));
    cbn [negb orb andb]; (split; [intros Hs | intros Hs]);
    try discriminate.
  all: repeat first [split | constructor]; rewrite obj_find_app;
    cbn [obj_find String.eqb Ascii.eqb Bool.eqb]; try reflexivity;
    rewrite ?Hurl, ?Hpick by (cbn; tauto); reflexivity.
Qed.

(** X20. While the block shows a temporary image (no id, blob url), an alt
    text or a caption that has been written meanwhile survives the
    selection of the uploaded media: a truthy alt attribute and a truthy
    caption attribute are left as they are. *)
Theorem onSelectImage_keeps_text_of_temporary_image attributes
  (m : ImageEdit.Media) :
  truthy (ImageEdit.media_url m) = true ->
  ImageEdit.isTemporaryImage isBlobURL (attributes "id") (attributes "url")
    = true ->
  let attributes' :=
    setAttributes_all
      (ImageEdit.onSelectImage isBlobURL K attributes (Some m)) attributes in
  (truthy (attributes "alt") = true -> attributes' "alt" = attributes "alt")
  /\ (truthy (attributes "caption") = true ->
      attributes' "caption" = attributes "caption").
Proof.
  intros Hu Ht attributes'.
  destruct (onSelectImage_patch attributes m Hu) as (ma & Hp & _ & Hkeep).
  destruct (Hkeep Ht) as [Halt Hcap].
  unfold attributes'; rewrite Hp, setAttributes_all_one.
  unfold setAttributes, obj_spread.
  split; intros Ha; rewrite obj_find_app.
  - destruct (_ || _); cbn [obj_find String.eqb Ascii.eqb Bool.eqb];
      rewrite (Halt Ha); reflexivity.
  - destruct (_ || _); cbn [obj_find String.eqb Ascii.eqb Bool.eqb];
      rewrite (Hcap Ha); reflexivity.
Qed.

(** X21. Selecting by URL the url the block already has does not call
    setAttributes at all; a different url becomes the url attribute, the id
    is cleared and sizeSlug becomes the default slug, nothing else changes,
    and the image then counts as external when the new url is truthy and
    not a blob url. *)
Theorem onSelectURL_new_url_only attributes newURL :
  let attributes' :=
    setAttributes_all (ImageEdit.onSelectURL K attributes newURL) attributes
  in
  (newURL = attributes "url" ->
   ImageEdit.onSelectURL K attributes newURL = [])
  /\ (newURL <> attributes "url" ->
      attributes' "url" = newURL
      /\ attributes' "id" = JSUndefined
      /\ attributes' "sizeSlug" = JSString (ImageEdit.DEFAULT_SIZE_SLUG K)
      /\ (forall k, k <> "url" -> k <> "id" -> k <> "sizeSlug" ->
                    attributes' k = attributes k)
      /\ (truthy newURL = true ->
          truthy (ImageEdit.isExternalImage isBlobURL (attributes' "id")
                    (attributes' "url")) = negb (isBlobURL newURL))).
Proof.
  intros attributes'; unfold attributes', ImageEdit.onSelectURL; split.
  - intros ->; rewrite js_strict_eq_refl; reflexivity.
  - intros Hne; apply js_strict_eq_neq in Hne; rewrite Hne; cbn [negb].
    rewrite setAttributes_all_one; unfold setAttributes; cbn [obj_find].
    cbn [String.eqb Ascii.eqb Bool.eqb].
    repeat split.
    + intros k H1 H2 H3; apply String.eqb_neq in H1, H2, H3.
      rewrite H1, H2, H3; reflexivity.
    + intros Hv; unfold ImageEdit.isExternalImage, js_and; rewrite Hv;
        reflexivity.
Qed.

(** X22. updateAlignment always stores the new alignment; for wide and
    full it clears width and height as well, and an image so aligned is not
    resizable whatever the viewport; for any other alignment it leaves every
    other attribute as it was. *)
Theorem updateAlignment_clears_size_when_wide attributes nextAlign :
  let attributes' :=
    setAttributes_all (ImageEdit.updateAlignment nextAlign) attributes in
  attributes' "align" = nextAlign
  /\ (ImageEdit.is_wide_or_full nextAlign = true ->
      attributes' "width" = JSUndefined
      /\ attributes' "height" = JSUndefined
      /\ forall isLargeViewport,
           truthy (ImageEdit.isResizable (attributes' "align")
                     isLargeViewport) = false)
  /\ (ImageEdit.is_wide_or_full nextAlign = false ->
      forall k, k <> "align" -> attributes' k = attributes k).
Proof.
  intros attributes'; unfold attributes', ImageEdit.updateAlignment.
  rewrite setAttributes_all_one; unfold setAttributes, obj_spread.
  destruct (ImageEdit.is_wide_or_full nextAlign) eqn:E;
    cbn [app obj_find String.eqb Ascii.eqb Bool.eqb];
    (split; [reflexivity|]); split; intros H; try discriminate.
  - split; [reflexivity|]; split; [reflexivity|].
    intros v; unfold ImageEdit.isResizable, js_and; rewrite E; reflexivity.
  - intros k Hk; apply String.eqb_neq in Hk; rewrite Hk; reflexivity.
Qed.

(** ** The popover inside the editor *)

Lemma linkDestinationInput_falsy attributes image value :
  truthy value = false ->
  ImageEdit.linkDestinationInput K translate attributes image value =
  ImageEdit.LINK_DESTINATION_NONE K.
Proof.
  intros Hv; unfold ImageEdit.linkDestinationInput; rewrite Hv; reflexivity.
Qed.

(** X23. Removing the link in the editor, from any state: the href
    attribute becomes the empty string, the linkDestination attribute
    becomes the constant for no link, the hooks of the popover are back to
    their initial values, and the next render shows the closed toolbar
    button alone, labelled for inserting a link. *)
Theorem remove_link_in_editor {Options : Type} (advancedOptions : Options)
  image (w : ImageEdit.EditorWorld) :
  let w' := ImageEdit.editor_call K translate image ImageEdit.onLinkRemove w
  in
  ImageEdit.ed_attributes w' "href" = JSString ""
  /\ ImageEdit.ed_attributes w' "linkDestination" =
       JSString (ImageEdit.LINK_DESTINATION_NONE K)
  /\ (forall k, k <> "href" -> k <> "linkDestination" ->
        ImageEdit.ed_attributes w' k = ImageEdit.ed_attributes w k)
  /\ ImageEdit.ed_ui w' = ImageEdit.ui_initial
  /\ ImageEdit.editor_link_ui K translate advancedOptions image w' =
       [ ImageEdit.ToolbarLinkButton (translate "Insert link") false
           ImageEdit.openLinkUI ].
Proof.
  intros w'.
  assert (Hattr : forall k, ImageEdit.ed_attributes w' k =
            if String.eqb k "href" then JSString ""
            else if String.eqb k "linkDestination"
                 then JSString (ImageEdit.LINK_DESTINATION_NONE K)
                 else ImageEdit.ed_attributes w k).
  { intros k; unfold w', ImageEdit.editor_call, ImageEdit.onLinkRemove,
      ImageEdit.closeLinkUI, ImageEdit.stopEditLink.
    cbn [app fold_left ImageEdit.editor_run_cmd ImageEdit.ed_attributes].
    rewrite onSetHref_attributes, linkDestinationInput_falsy;
      reflexivity. }
  assert (Hui : ImageEdit.ed_ui w' = ImageEdit.ui_initial) by reflexivity.
  split; [rewrite Hattr; reflexivity|].
  split; [rewrite Hattr; reflexivity|].
  split.
  { intros k H1 H2; rewrite Hattr; apply String.eqb_neq in H1, H2.
    rewrite H1, H2; reflexivity. }
  split; [exact Hui|].
  unfold ImageEdit.editor_link_ui, ImageEdit.ImageURLInputUI,
    ImageEdit.link_props; cbn [ImageEdit.ui_url]; rewrite Hui, Hattr.
  reflexivity.
Qed.

(** X24. Submitting the link editor inside the editor: a truthy typed
    value becomes the href attribute and, the popover being open, the next
    render shows the link viewer for that value and no link editor; an
    empty or untouched field leaves all attributes as they are. *)
Theorem submit_link_in_editor {Options : Type} (advancedOptions : Options)
  image (w : ImageEdit.EditorWorld) :
  let typed := ImageEdit.urlInput (ImageEdit.ed_ui w) in
  let w' :=
    ImageEdit.editor_call K translate image
      (ImageEdit.onSubmitLinkChange typed) w in
  let kids :=
    ImageEdit.popover_children
      (ImageEdit.editor_link_ui K translate advancedOptions image w') in
  (truthy typed = false ->
   ImageEdit.ed_attributes w' = ImageEdit.ed_attributes w)
  /\ (truthy typed = true ->
      ImageEdit.ed_attributes w' "href" = typed
      /\ (ImageEdit.isOpen (ImageEdit.ed_ui w) = true ->
          existsb ImageEdit.is_LinkEditor kids = false
          /\ map (fun e => match e with
                           | ImageEdit.LinkViewer u _ _ => Some u
                           | _ => None
                           end) (filter ImageEdit.is_LinkViewer kids)
             = [Some typed])).
Proof.
  intros typed w' kids; split; intros Ht.
  - unfold w', ImageEdit.onSubmitLinkChange; rewrite Ht; reflexivity.
  - assert (Hhref : ImageEdit.ed_attributes w' "href" = typed).
    { unfold w', ImageEdit.onSubmitLinkChange, ImageEdit.editor_call,
        ImageEdit.stopEditLink; rewrite Ht.
      cbn [app fold_left ImageEdit.editor_run_cmd ImageEdit.ed_attributes].
      rewrite onSetHref_attributes; reflexivity. }
    split; [exact Hhref|].
    intros Hopen.
    assert (Hui : ImageEdit.ed_ui w' =
              ImageEdit.mkUIState true false JSNull).
    { unfold w', ImageEdit.onSubmitLinkChange, ImageEdit.editor_call,
        ImageEdit.stopEditLink; rewrite Ht.
      cbn [app fold_left ImageEdit.editor_run_cmd ImageEdit.ed_ui
             ImageEdit.ui_state_cmd ImageEdit.isOpen ImageEdit.isEditingLink
             ImageEdit.urlInput].
      rewrite Hopen; reflexivity. }
    unfold kids, ImageEdit.editor_link_ui, ImageEdit.ImageURLInputUI,
      ImageEdit.link_props; cbn [ImageEdit.ui_url].
    rewrite Hui, Hhref; unfold js_or; rewrite Ht.
    cbn -[ImageEdit.linkEditorValue]; rewrite Ht.
    cbn -[ImageEdit.linkEditorValue]; auto.
Qed.

End ImageEditProperties.

(** * Properties of the colour hook *)

Section UseColorsProperties.

Variable custom_key : string -> string.

Implicit Type attributes : Attributes.
Implicit Type colors settingsColors : list UseColors.Color.
Implicit Type colorConfig : UseColors.ColorConfig.
Implicit Type newColor : JSValue.

Lemma scan_needs_flags (checkers : list UseColors.ContrastChecker)
  (needsBackgroundColor needsColor : bool) :
  UseColors.scan_needs checkers needsBackgroundColor needsColor =
  (needsBackgroundColor
   || existsb (fun c => js_strict_eq (UseColors.backgroundColor c)
                          (JSBool true)) checkers,
   needsColor
   || existsb (fun c => js_strict_eq (UseColors.textColor c) (JSBool true))
        checkers).
Proof.
  revert needsBackgroundColor needsColor.
  induction checkers as [|c rest IH]; intros nb nc; cbn.
  - rewrite !Bool.orb_false_r; reflexivity.
  - destruct nb, nc; cbn;
      destruct (js_strict_eq (UseColors.backgroundColor c) (JSBool true));
      destruct (js_strict_eq (UseColors.textColor c) (JSBool true));
      cbn; rewrite ?IH; cbn; rewrite ?Bool.orb_true_r; reflexivity.
Qed.

(** X25. The hook builds a colour detector exactly when some contrast
    checker asks for a detected colour, that is has backgroundColor or
    textColor equal to true; leaving the loop early, once both kinds were
    seen, loses nothing. *)
Theorem ColorDetector_iff_some_checker_detects
  (contrastCheckers : UseColors.ContrastCheckers) :
  UseColors.has_ColorDetector contrastCheckers = true <->
  exists c, In c (UseColors.castArray contrastCheckers)
            /\ (UseColors.backgroundColor c = JSBool true
                \/ UseColors.textColor c = JSBool true).
Proof.
  assert (G : forall l,
    (let (nb, nc) := UseColors.scan_needs l false false in nb || nc) = true
    <-> exists c, In c l
                  /\ (UseColors.backgroundColor c = JSBool true
                      \/ UseColors.textColor c = JSBool true)).
  { intros l; rewrite scan_needs_flags; cbn [orb].
    rewrite Bool.orb_true_iff, !existsb_exists; split.
    - intros [(c & Hin & Hc) | (c & Hin & Hc)]; exists c;
        apply js_strict_eq_eq in Hc; auto.
    - intros (c & Hin & [Hc | Hc]); [left | right]; exists c;
        (split; [exact Hin | apply js_strict_eq_eq; exact Hc]). }
  destruct contrastCheckers as [|l|c]; cbn [UseColors.has_ColorDetector].
  - split; [discriminate | intros (c & [] & _)].
  - apply G.
  - apply G.
Qed.

Lemma setColor_attributes attributes (name : string) colors newColor
  (k : string) :
  custom_key name <> name ->
  setAttributes_all (UseColors.setColor custom_key name colors newColor)
    attributes k =
  match find (fun c => js_strict_eq (UseColors.color c) newColor) colors with
  | Some c =>
      if String.eqb k name then JSString (UseColors.slug c)
      else if String.eqb k (custom_key name) then JSUndefined
           else attributes k
  | None =>
      if String.eqb k (custom_key name) then newColor
      else if String.eqb k name then JSUndefined
           else attributes k
  end.
Proof.
  intros Hne; unfold UseColors.setColor, setAttributes_all.
  cbn [fold_left]; unfold setAttributes; cbn [obj_find].
  destruct (find _ colors) as [c|].
  - destruct (String.eqb k name) eqn:E; [reflexivity|].
    destruct (String.eqb k (custom_key name)); reflexivity.
  - destruct (String.eqb k (custom_key name)) eqn:E; [reflexivity|].
    destruct (String.eqb k name); reflexivity.
Qed.

(** X26. Provided the key of the custom colour differs from the name,
    setColor( newColor ) leaves exactly one of the two attributes written:
    when the palette has the colour, the name attribute holds the slug of
    the first palette entry with that colour and the custom attribute is
    undefined; otherwise the custom attribute holds the colour and the name
    attribute is undefined. No other attribute changes. *)
Theorem setColor_writes_slug_or_custom attributes (name : string) colors
  newColor :
  custom_key name <> name ->
  let attributes' :=
    setAttributes_all (UseColors.setColor custom_key name colors newColor)
      attributes in
  match find (fun c => js_strict_eq (UseColors.color c) newColor) colors with
  | Some c => attributes' name = JSString (UseColors.slug c)
              /\ attributes' (custom_key name) = JSUndefined
  | None => attributes' name = JSUndefined
            /\ attributes' (custom_key name) = newColor
  end
  /\ (forall k, k <> name -> k <> custom_key name ->
                attributes' k = attributes k).
Proof.
  intros Hne attributes'.
  assert (Hk := fun k => setColor_attributes attributes name colors newColor
                           k Hne).
  fold attributes' in Hk.
  assert (E1 : String.eqb (custom_key name) name = false)
    by (apply String.eqb_neq; exact Hne).
  assert (E2 : String.eqb name (custom_key name) = false)
    by (apply String.eqb_neq; congruence).
  split.
  - rewrite (Hk name), (Hk (custom_key name)).
    destruct (find _ colors); rewrite ?String.eqb_refl, ?E1, ?E2; auto.
  - intros k H1 H2; rewrite Hk; apply String.eqb_neq in H1, H2.
    destruct (find _ colors); rewrite H1, H2; reflexivity.
Qed.

(** X27. Setting a colour and reading it back: when the key of the custom
    colour differs from the name and no two entries of the palette share a
    slug with different colours, then after setColor( newColor ) with a
    truthy colour the component of the configuration carries exactly that
    colour, whether it was found in the palette or stored as custom. *)
Theorem setColor_then_component_color attributes settingsColors colorConfig
  newColor :
  let name := UseColors.config_name colorConfig in
  let colors := UseColors.config_palette settingsColors colorConfig in
  custom_key name <> name ->
  truthy newColor = true ->
  (forall c1 c2, In c1 colors -> In c2 colors ->
                 UseColors.slug c1 = UseColors.slug c2 ->
                 UseColors.color c1 = UseColors.color c2) ->
  UseColors.component_color custom_key
    (setAttributes_all (UseColors.setColor custom_key name colors newColor)
       attributes)
    settingsColors colorConfig = newColor.
Proof.
  intros name colors Hne Ht Huniq.
  pose proof (fun k => setColor_attributes attributes name colors newColor
                         k Hne) as Hk.
  set (attributes' := setAttributes_all _ attributes) in *.
  assert (E1 : String.eqb (custom_key name) name = false)
    by (apply String.eqb_neq; exact Hne).
  assert (E2 : String.eqb name (custom_key name) = false)
    by (apply String.eqb_neq; congruence).
  unfold UseColors.component_color, UseColors.palette_color,
    UseColors.config_slug; fold name; fold colors.
  rewrite (Hk (custom_key name)), (Hk name).
  destruct (find (fun c => js_strict_eq (UseColors.color c) newColor) colors)
    as [c|] eqn:Ef; rewrite ?String.eqb_refl, ?E1, ?E2.
  - cbn [truthy].
    apply find_some in Ef; destruct Ef as [Hin Hc].
    apply js_strict_eq_eq in Hc.
    destruct (find (fun c' => js_strict_eq (JSString (UseColors.slug c'))
                                (JSString (UseColors.slug c))) colors)
      as [c'|] eqn:Ef'.
    + apply find_some in Ef'; destruct Ef' as [Hin' Hs].
      apply js_strict_eq_eq in Hs; injection Hs as Hs.
      rewrite (Huniq c' c Hin' Hin Hs); exact Hc.
    + pose proof (find_none _ _ Ef' c Hin) as Hnone; cbn in Hnone.
      rewrite String.eqb_refl in Hnone; discriminate.
  - rewrite Ht; reflexivity.
Qed.

(** X28. Whenever the component of a configuration carries a colour (a
    truthy one), the colour panel is given that same colour as the value of
    its setting. *)
Theorem setting_value_is_component_color attributes settingsColors
  colorConfig :
  truthy (UseColors.component_color custom_key attributes settingsColors
            colorConfig) = true ->
  UseColors.setting_value custom_key attributes settingsColors colorConfig =
  UseColors.component_color custom_key attributes settingsColors colorConfig.
Proof.
  unfold UseColors.setting_value, UseColors.component_color,
    UseColors.palette_color.
  destruct (truthy (attributes
              (custom_key (UseColors.config_name colorConfig)))) eqn:Ec.
  - reflexivity.
  - destruct (find _ _); [reflexivity | discriminate].
Qed.


End UseColorsProperties.

(** * The further properties on concrete blocks *)

(** A block without id whose url is a blob url is temporary, not
    external. *)
Lemma image_temporary_xor_external_witness :
  ImageEdit.isTemporaryImage starts_with_blob JSUndefined
    (JSString "blob:1234") = true
  /\ truthy (ImageEdit.isExternalImage starts_with_blob JSUndefined
               (JSString "blob:1234")) = false.
Proof.
  pose proof (image_temporary_xor_external starts_with_blob JSUndefined
                (JSString "blob:1234")) as (_ & H & _).
  destruct (H eq_refl eq_refl) as [H1 H2].
  split; [rewrite H1 | rewrite H2]; reflexivity.
Defined.

(** Left-aligned in a right-to-left editor: the right handle, as for
    right-aligned in a left-to-right editor the left one. *)
Lemma resize_handles_mirrored_witness :
  ImageEdit.resize_handles (JSString "left") (JSBool true) = (true, false).
Proof.
  rewrite (resize_handles_mirrored (JSString "left") (JSBool true)
             (JSBool false)); reflexivity.
Defined.

(** An open popover on a linked image that is not being edited shows the
    viewer. *)
Lemma popover_editor_xor_viewer_witness :
  existsb ImageEdit.is_LinkViewer
    (ImageEdit.popover_children
       (ImageEdit.ImageURLInputUI image_constants english
          (ImageEdit.mkUIProps tt (JSString "custom") []
             (JSString "https://example.org"))
          (ImageEdit.mkUIState true false JSNull))) = true.
Proof.
  pose proof (popover_editor_xor_viewer image_constants english
                (ImageEdit.mkUIProps tt (JSString "custom") []
                   (JSString "https://example.org"))
                (ImageEdit.mkUIState true false JSNull)) as [_ H].
  destruct (H eq_refl) as (_ & Hv & _).
  rewrite Hv; reflexivity.
Defined.

(** Editing the link of an image that links to its media file starts from
    an empty field. *)
Lemma startEditLink_blanks_media_links_witness :
  map (fun e => match e with
                | ImageEdit.LinkEditor v _ _ => Some v
                | _ => None
                end)
      (ImageEdit.popover_children
         (ImageEdit.ImageURLInputUI image_constants english
            (ImageEdit.mkUIProps tt (JSString "media") []
               (JSString "https://example.org/cat.jpg"))
            (ImageEdit.ui_state
               (ImageEdit.ui_call
                  (ImageEdit.startEditLink image_constants (JSString "media"))
                  (ImageEdit.mkUIWorld
                     (ImageEdit.mkUIState true false JSNull) [] 0)))))
  = [Some (JSString "")].
Proof.
  apply (startEditLink_blanks_media_links image_constants english
           (ImageEdit.mkUIProps tt (JSString "media") []
              (JSString "https://example.org/cat.jpg"))
           (ImageEdit.mkUIWorld (ImageEdit.mkUIState true false JSNull)
              [] 0%nat)).
  reflexivity.
Defined.

(** Pointing the link of the library block to its attachment page. *)
Lemma onSetHref_keeps_destination_in_step_witness :
  let attributes' :=
    setAttributes_all
      (ImageEdit.onSetHref image_constants english library_block image_7
         (JSString "https://example.org/?attachment_id=7")) library_block in
  attributes' "linkDestination" = JSString "attachment"
  /\ attributes' "url" = JSString "https://example.org/cat-300.jpg".
Proof.
  pose proof (onSetHref_keeps_destination_in_step image_constants english
                library_block image_7
                (JSString "https://example.org/?attachment_id=7"))
    as (_ & Hd & Hother & _).
  split.
  - rewrite Hd; reflexivity.
  - rewrite (Hother "url"); [reflexivity | discriminate | discriminate].
Defined.

(** With the constants none, media, attachment and custom: the empty string
    gives none and the url of the media file gives media. *)
Lemma linkDestinationInput_none_iff_falsy_witness :
  ImageEdit.linkDestinationInput image_constants english library_block
    image_7 (JSString "") = "none"
  /\ ImageEdit.linkDestinationInput image_constants english library_block
       image_7 (JSString "https://example.org/cat.jpg") = "media".
Proof.
  split.
  - apply (linkDestinationInput_none_iff_falsy image_constants english
             library_block image_7 (JSString ""));
      [discriminate | discriminate | discriminate | reflexivity].
  - apply (linkDestinationInput_none_iff_falsy image_constants english
             library_block image_7 (JSString "https://example.org/cat.jpg"));
      [discriminate | discriminate | discriminate | reflexivity
      | reflexivity].
Defined.

(** A media without url clears the image of the library block and keeps its
    width. *)
Lemma onSelectImage_without_media_clears_witness :
  let attributes' :=
    setAttributes_all
      (ImageEdit.onSelectImage starts_with_blob image_constants library_block
         (Some media_without_url)) library_block in
  attributes' "url" = JSUndefined /\ attributes' "width" = JSNumber 300.
Proof.
  assert (Hm : forall m, Some media_without_url = Some m ->
                         truthy (ImageEdit.media_url m) = false)
    by (intros m H; injection H as <-; reflexivity).
  pose proof (onSelectImage_without_media_clears starts_with_blob
                image_constants library_block (Some media_without_url) Hm)
    as [Hclear Hkeep].
  split.
  - exact (Forall_inv Hclear).
  - rewrite (Hkeep "width"); [reflexivity|].
    cbn; intros [H | [H | [H | [H | [H | []]]]]]; discriminate.
Defined.

(** Selecting media 7 again keeps the medium url and the width; selecting
    media 8 clears the width and resets the size slug. *)
Lemma onSelectImage_same_or_other_image_witness :
  setAttributes_all
    (ImageEdit.onSelectImage starts_with_blob image_constants library_block
       (Some media_7)) library_block "url"
  = JSString "https://example.org/cat-300.jpg"
  /\ setAttributes_all
       (ImageEdit.onSelectImage starts_with_blob image_constants
          library_block (Some media_8)) library_block "sizeSlug"
     = JSString "large".
Proof.
  split.
  - pose proof (onSelectImage_same_or_other_image starts_with_blob
                  image_constants library_block media_7 eq_refl) as [H _].
    rewrite (Forall_inv (H eq_refl)); reflexivity.
  - pose proof (onSelectImage_same_or_other_image starts_with_blob
                  image_constants library_block media_8 eq_refl) as [_ H].
    destruct (H eq_refl) as (_ & _ & Hs & _); rewrite Hs; reflexivity.
Defined.

(** The alt text typed during the upload survives the uploaded media. *)
Lemma onSelectImage_keeps_text_of_temporary_image_witness :
  setAttributes_all
    (ImageEdit.onSelectImage starts_with_blob image_constants uploading_block
       (Some media_8)) uploading_block "alt" = JSString "A cat".
Proof.
  pose proof (onSelectImage_keeps_text_of_temporary_image starts_with_blob
                image_constants uploading_block media_8 eq_refl eq_refl)
    as [H _].
  rewrite (H eq_refl); reflexivity.
Defined.

(** Replacing the image of the library block by an outside url. *)
Lemma onSelectURL_new_url_only_witness :
  ImageEdit.onSelectURL image_constants library_block
    (JSString "https://example.org/cat-300.jpg") = []
  /\ truthy
       (ImageEdit.isExternalImage starts_with_blob
          (setAttributes_all
             (ImageEdit.onSelectURL image_constants library_block
                (JSString "https://elsewhere.example/dog.png"))
             library_block "id")
          (setAttributes_all
             (ImageEdit.onSelectURL image_constants library_block
                (JSString "https://elsewhere.example/dog.png"))
             library_block "url")) = true.
Proof.
  split.
  - apply (proj1 (onSelectURL_new_url_only starts_with_blob image_constants
                    library_block
                    (JSString "https://example.org/cat-300.jpg")));
      reflexivity.
  - pose proof (proj2 (onSelectURL_new_url_only starts_with_blob
                         image_constants library_block
                         (JSString "https://elsewhere.example/dog.png")))
      as H.
    destruct H as (_ & _ & _ & _ & He); [discriminate|].
    rewrite (He eq_refl); reflexivity.
Defined.

(** Aligning the resized library block wide clears its width. *)
Lemma updateAlignment_clears_size_when_wide_witness :
  setAttributes_all (ImageEdit.updateAlignment (JSString "wide"))
    library_block "width" = JSUndefined
  /\ setAttributes_all (ImageEdit.updateAlignment (JSString "left"))
       library_block "width" = JSNumber 300.
Proof.
  split.
  - pose proof (updateAlignment_clears_size_when_wide library_block
                  (JSString "wide")) as (_ & H & _).
    destruct (H eq_refl) as [Hw _]; exact Hw.
  - pose proof (updateAlignment_clears_size_when_wide library_block
                  (JSString "left")) as (_ & _ & H).
    rewrite (H eq_refl "width"); [reflexivity | discriminate].
Defined.

(** Removing the link of the library block keeps its image. *)
Lemma remove_link_in_editor_witness :
  let w' :=
    ImageEdit.editor_call image_constants english image_7
      ImageEdit.onLinkRemove
      (ImageEdit.mkEditorWorld library_block
         (ImageEdit.mkUIState true false JSNull)) in
  ImageEdit.ed_attributes w' "linkDestination" = JSString "none"
  /\ ImageEdit.ed_attributes w' "url" =
       JSString "https://example.org/cat-300.jpg".
Proof.
  pose proof (remove_link_in_editor image_constants english tt image_7
                (ImageEdit.mkEditorWorld library_block
                   (ImageEdit.mkUIState true false JSNull)))
    as (_ & Hd & Hother & _).
  split.
  - rewrite Hd; reflexivity.
  - rewrite (Hother "url"); [reflexivity | discriminate | discriminate].
Defined.

(** Typing a custom url into the open popover of the library block and
    submitting it. *)
Lemma submit_link_in_editor_witness :
  ImageEdit.ed_attributes
    (ImageEdit.editor_call image_constants english image_7
       (ImageEdit.onSubmitLinkChange (JSString "https://example.com"))
       (ImageEdit.mkEditorWorld library_block
          (ImageEdit.mkUIState true true (JSString "https://example.com"))))
    "href" = JSString "https://example.com".
Proof.
  pose proof (submit_link_in_editor image_constants english tt image_7
                (ImageEdit.mkEditorWorld library_block
                   (ImageEdit.mkUIState true true
                      (JSString "https://example.com")))) as [_ H].
  destruct (H eq_refl) as [Hhref _]; exact Hhref.
Defined.

(** Picking the blue of the palette stores its slug; picking a colour the
    palette does not have stores the colour as custom. *)
Lemma setColor_writes_slug_or_custom_witness :
  setAttributes_all
    (UseColors.setColor custom_dash "textColor" palette (JSString "#00f"))
    (attributes_of []) "textColor" = JSString "blue"
  /\ setAttributes_all
       (UseColors.setColor custom_dash "textColor" palette (JSString "#123"))
       (attributes_of []) "custom-textColor" = JSString "#123".
Proof.
  split.
  - pose proof (setColor_writes_slug_or_custom custom_dash (attributes_of [])
                  "textColor" palette (JSString "#00f")) as H.
    destruct H as [[Hs _] _]; [discriminate | exact Hs].
  - pose proof (setColor_writes_slug_or_custom custom_dash (attributes_of [])
                  "textColor" palette (JSString "#123")) as H.
    destruct H as [[_ Hc] _]; [discriminate | exact Hc].
Defined.

(** The blue of the palette, set and read back. *)
Lemma setColor_then_component_color_witness :
  UseColors.component_color custom_dash
    (setAttributes_all
       (UseColors.setColor custom_dash "textColor" palette (JSString "#00f"))
       (attributes_of []))
    palette textColor_config = JSString "#00f".
Proof.
  apply (setColor_then_component_color custom_dash (attributes_of [])
           palette textColor_config (JSString "#00f")).
  - discriminate.
  - reflexivity.
  - cbn; intros c1 c2 [<- | [<- | []]] [<- | [<- | []]]; cbn;
      intros H; try reflexivity; discriminate H.
Defined.

(** A block with the red slug: the panel shows the red of the palette. *)
Lemma setting_value_is_component_color_witness :
  UseColors.setting_value custom_dash
    (attributes_of [ ("textColor", JSString "red") ]) palette
    textColor_config = JSString "#f00".
Proof.
  rewrite (setting_value_is_component_color custom_dash
             (attributes_of [ ("textColor", JSString "red") ]) palette
             textColor_config); reflexivity.
Defined.


(** Opening the popover of an unlinked image, typing, and closing it. *)
Lemma popover_closed_is_fresh_witness :
  ImageEdit.urlInput
    (ImageEdit.ui_state
       (ImageEdit.ui_run image_constants english
          [ (ImageEdit.mkUIProps tt JSUndefined [] (JSString ""),
             ImageEdit.ClickLinkButton);
            (ImageEdit.mkUIProps tt JSUndefined [] (JSString ""),
             ImageEdit.TypeUrl (JSString "https://example.com")) ]
          (ImageEdit.mkUIWorld ImageEdit.ui_initial [] 0)))
  = JSString "https://example.com"
  /\ ImageEdit.ui_state
       (ImageEdit.ui_run image_constants english
          [ (ImageEdit.mkUIProps tt JSUndefined [] (JSString ""),
             ImageEdit.ClickLinkButton);
            (ImageEdit.mkUIProps tt JSUndefined [] (JSString ""),
             ImageEdit.TypeUrl (JSString "https://example.com"));
            (ImageEdit.mkUIProps tt JSUndefined [] (JSString ""),
             ImageEdit.ClosePopover) ]
          (ImageEdit.mkUIWorld ImageEdit.ui_initial [] 0))
     = ImageEdit.ui_initial.
Proof.
  split; [reflexivity|].
  apply (popover_closed_is_fresh image_constants english
           [ (ImageEdit.mkUIProps tt JSUndefined [] (JSString ""),
              ImageEdit.ClickLinkButton);
             (ImageEdit.mkUIProps tt JSUndefined [] (JSString ""),
              ImageEdit.TypeUrl (JSString "https://example.com"));
             (ImageEdit.mkUIProps tt JSUndefined [] (JSString ""),
              ImageEdit.ClosePopover) ]).
  reflexivity.
Defined.
